(** * Travel app: itinerary pipeline, dashboard statistics and route guards

    A shallow embedding of the TypeScript sources of the travel-itinerary
    application (lib/utils, appwrite/auth, appwrite/trips, appwrite/dashboard,
    routes/api/create-trip, routes/admin/{admin-layout,create-trip,trips}),
    with the properties the specification states about them.

    Conventions.
    - A JavaScript [number] is [JsNumber.number]: an exact rational, NaN or a
      signed infinity.  Rounding of IEEE doubles is outside the model.
    - JSON values are the inductive type [Json]; store documents are finite
      maps from field names to JSON values.
    - Everything the application only consumes (the SDK of the document
      store, the session provider, the language model, the photo search,
      [JSON.parse], [JSON.stringify], the clock) is a field of the record
      [Host]; functions of the application take the host as a parameter and
      leave a chronological trace of the effects they performed. *)

From Stdlib Require Import ZArith QArith Qcanon Qcabs String Ascii List Lia.
From stdpp Require Import base option list strings pretty gmap.

(** ** JavaScript numbers *)

Module JsNumber.

Inductive number : Type :=
| Finite (q : Qc)
| NaN
| Infinity (negative : bool).

Definition of_Z (z : Z) : number := Finite (Qc_of_Z z).

Definition zero : number := of_Z 0.

(** [a === b] on numbers: NaN is equal to nothing. *)
Definition strict_eq (a b : number) : bool :=
  match a, b with
  | Finite x, Finite y => bool_decide (x = y)
  | Infinity s, Infinity t => bool_decide (s = t)
  | _, _ => false
  end.

(** [a < b]: every comparison with NaN is false. *)
Definition lt (a b : number) : bool :=
  match a, b with
  | Finite x, Finite y => bool_decide (x < y)%Qc
  | Infinity true, Finite _ | Infinity true, Infinity false
  | Finite _, Infinity false => true
  | _, _ => false
  end.

Definition gt (a b : number) : bool := lt b a.

Definition sign (x : Qc) : bool := bool_decide (x < 0)%Qc.

Definition neg (a : number) : number :=
  match a with
  | Finite x => Finite (- x)%Qc
  | NaN => NaN
  | Infinity s => Infinity (negb s)
  end.

Definition add (a b : number) : number :=
  match a, b with
  | Finite x, Finite y => Finite (x + y)%Qc
  | NaN, _ | _, NaN => NaN
  | Infinity s, Infinity t => if bool_decide (s = t) then Infinity s else NaN
  | Infinity s, Finite _ | Finite _, Infinity s => Infinity s
  end.

Definition sub (a b : number) : number := add a (neg b).

Definition mul (a b : number) : number :=
  match a, b with
  | Finite x, Finite y => Finite (x * y)%Qc
  | NaN, _ | _, NaN => NaN
  | Infinity s, Infinity t => Infinity (xorb s t)
  | Infinity s, Finite x | Finite x, Infinity s =>
      if bool_decide (x = 0)%Qc then NaN else Infinity (xorb s (sign x))
  end.

(** Division; the model has a single zero, taken as positive. *)
Definition div (a b : number) : number :=
  match a, b with
  | Finite x, Finite y =>
      if bool_decide (y = 0)%Qc
      then (if bool_decide (x = 0)%Qc then NaN else Infinity (sign x))
      else Finite (x / y)%Qc
  | NaN, _ | _, NaN => NaN
  | Infinity _, Infinity _ => NaN
  | Infinity s, Finite y => Infinity (xorb s (sign y))
  | Finite _, Infinity _ => Finite 0%Qc
  end.

(** [Math.abs] *)
Definition abs (a : number) : number :=
  match a with
  | Finite x => Finite (Qcabs x)
  | NaN => NaN
  | Infinity _ => Infinity false
  end.

End JsNumber.

Import JsNumber.

(** ** lib/utils: calculateTrendPercentage *)

Inductive Trend : Type := increment | decrement | no_change.

Record TrendResult : Type := mkTrend { trend : Trend; percentage : number }.

Definition calculateTrendPercentage
    (countOfThisMonth countOfLastMonth : number) : TrendResult :=
  if strict_eq countOfLastMonth zero then
    if strict_eq countOfThisMonth zero
    then {| trend := no_change; percentage := of_Z 0 |}
    else {| trend := increment; percentage := of_Z 100 |}
  else
    let change := sub countOfThisMonth countOfLastMonth in
    let percentage := abs (mul (div change countOfLastMonth) (of_Z 100)) in
    if gt change zero then {| trend := increment; percentage := percentage |}
    else if lt change zero then {| trend := decrement; percentage := percentage |}
    else {| trend := no_change; percentage := of_Z 0 |}.

(** ** Strings and JSON values *)

Definition newline : string := String "010"%char EmptyString.

(** [s >= t], [s <= t] on JavaScript strings: lexicographic order of the
    code units (bytes here; the two agree on the ASCII timestamps compared). *)
Definition str_le (s t : string) : bool := String.leb s t.
Definition str_ge (s t : string) : bool := String.leb t s.

(** A JSON value; JavaScript's [undefined] is the [None] of [option Json]. *)
#[local] Set Warnings "-register-all".
Inductive Json : Type :=
| JNull
| JBool (b : bool)
| JNumber (n : number)
| JString (s : string)
| JArray (items : list Json)
| JObject (fields : list (string * Json)).

(** Own field of a parsed object ([fields] has one entry per key). *)
Fixpoint assoc {A : Type} (k : string) (fields : list (string * A)) : option A :=
  match fields with
  | [] => None
  | (k', v) :: rest => if String.eqb k' k then Some v else assoc k rest
  end.

(** [v.k] for a JSON value [v] that is not [null] and a name [k] that is
    neither an index nor a built-in property. *)
Definition prop (v : Json) (k : string) : option Json :=
  match v with
  | JObject fields => assoc k fields
  | _ => None
  end.

(** [v[0]] for a JSON value that is not [null]. *)
Definition index0 (v : Json) : option Json :=
  match v with
  | JArray items => head items
  | JString (String c _) => Some (JString (String c EmptyString))
  | JObject fields => assoc "0" fields
  | _ => None
  end.

(** Truthiness, with [undefined] falsy. *)
Definition truthy (v : option Json) : bool :=
  match v with
  | None | Some JNull => false
  | Some (JBool b) => b
  | Some (JNumber NaN) => false
  | Some (JNumber n) => negb (strict_eq n zero)
  | Some (JString s) => negb (String.eqb s "")
  | Some (JArray _) | Some (JObject _) => true
  end.

(** [v || null] *)
Definition or_null (v : option Json) : Json :=
  match v with
  | Some j => if truthy v then j else JNull
  | None => JNull
  end.

(** A document of the store: field name to value. *)
Abbreviation Document := (gmap string Json).

(** ** The fenced-block pattern of parseMarkdownToJson *)

(** The literal parts of [/```json\n([\s\S]+?)\n```/]. *)
Definition fence_open : string := "```json" +:+ newline.
Definition fence_close : string := newline +:+ "```".

(** The rest of [s] after the literal [p], when [s] starts with [p]. *)
Fixpoint strip_prefix (p s : string) : option string :=
  match p, s with
  | EmptyString, _ => Some s
  | String a p', String b s' =>
      if Ascii.eqb a b then strip_prefix p' s' else None
  | String _ _, EmptyString => None
  end.

(** The lazy group [([\s\S]+?)] followed by the closing literal: the
    shortest non-empty prefix of [s] after which [fence_close] follows. *)
Fixpoint lazy_body (s : string) : option string :=
  match s with
  | EmptyString => None
  | String c rest =>
      match strip_prefix fence_close rest with
      | Some _ => Some (String c EmptyString)
      | None => String c <$> lazy_body rest
      end
  end.

(** The pattern anchored at the start of [s]; the result is group 1. *)
Definition match_at (s : string) : option string :=
  strip_prefix fence_open s ≫= lazy_body.

(** [s.match(regex)]: the leftmost position at which the pattern matches;
    the result is [match[1]]. *)
Fixpoint regex_match (s : string) : option string :=
  match match_at s with
  | Some body => Some body
  | None =>
      match s with
      | EmptyString => None
      | String _ rest => regex_match rest
      end
  end.

(** [v === s] for a string literal [s]. *)
Definition is_string (v : option Json) (s : string) : bool :=
  match v with
  | Some (JString s') => String.eqb s' s
  | _ => false
  end.

(** ** The host: external collaborators *)

Inductive Collection : Type := userCollection | tripCollection.

(** The query terms the application builds with the SDK's [Query]. *)
Inductive Query : Type :=
| Query_limit (n : number)
| Query_offset (n : number)
| Query_orderDesc (attribute : string)
| Query_equal (attribute : string) (value : string)
| Query_select (attributes : list string).

(** What [listDocuments] resolves to. *)
Record DocumentList : Type :=
  { documents : list Document; total : Z }.

(** What [account.get()] resolves to. *)
Record Account : Type :=
  { account_id : string; account_email : string; account_name : string }.

(** The prompt of create-trip: its fixed text with these values spliced in. *)
Record Prompt : Type :=
  { prompt_numberOfDays : option Json;
    prompt_country : option Json;
    prompt_budget : option Json;
    prompt_interests : option Json;
    prompt_travelStyle : option Json;
    prompt_groupType : option Json }.

(** The form state of the create-trip page. *)
Record TripFormData : Type :=
  { country : string;
    travelStyle : string;
    interest : string;
    duration : number;
    budget : string;
    groupType : string }.

(** The outbound HTTP requests, by target. *)
Inductive Request : Type :=
| PhotoSearch (country travelStyle : option Json)
| GooglePeople (accessToken : string)
| CreateTripApi (form : TripFormData) (userId : string).

(** What [fetch] does: reject, or resolve to a response with its [ok] flag
    and the outcome of [response.json()] ([None]: the body is not JSON). *)
Inductive FetchResult : Type :=
| NetworkError
| HttpResponse (ok : bool) (json : option Json).

(** The month boundaries getUsersAndTripsStats derives from [new Date()]:
    the ISO renderings of local midnight on day 1 of the current month,
    on day 1 of the previous month, and on day 0 of the current month. *)
Record MonthBounds : Type :=
  { startCurrent : string; startPrev : string; endPrev : string }.

(** Every call below either resolves ([Some]) or rejects ([None]). *)
Record Host : Type :=
  { JSON_parse : string -> option Json;
    JSON_stringify : Json -> string;
    now_toISOString : string;
    monthBounds : MonthBounds;
    (** [new Date(v).toLocaleDateString('en-US', {month: 'short', day: 'numeric'})];
        a month-and-day label or ['Invalid Date'], never a name that an
        empty object inherits. *)
    toLocaleDateString : option Json -> string;
    account_get : option Account;
    (** the [providerAccessToken] of the current session *)
    account_getSession : option (option string);
    listDocuments : Collection -> list Query -> option DocumentList;
    createDocument : Collection -> Document -> option Document;
    generateContent : Prompt -> option string;
    fetch : Request -> FetchResult }.

(** ** Effects: a trace of calls, and exceptions *)

Inductive Event : Type :=
| console_error (msg : string)
| console_log (msg : string)
| ev_listDocuments (c : Collection) (queries : list Query)
| ev_createDocument (c : Collection) (data : Document)
| ev_generateContent (p : Prompt)
| ev_fetch (r : Request)
| ev_setError (msg : string)
| ev_setLoading (b : bool)
| ev_navigate (path : string) (id : Json).

Inductive Exn : Type :=
| Rejected (call : string)
| TypeError
| SyntaxError
| Error (msg : string).

Inductive Outcome (A : Type) : Type :=
| Returned (a : A)
| Threw (e : Exn).
Arguments Returned {A} a.
Arguments Threw {A} e.

(** A computation reads the host, extends the trace, and returns or throws. *)
Definition M (A : Type) : Type := Host -> list Event -> Outcome A * list Event.

Definition ret {A : Type} (a : A) : M A := fun _ tr => (Returned a, tr).

Definition throw {A : Type} (e : Exn) : M A := fun _ tr => (Threw e, tr).

Definition bind {A B : Type} (m : M A) (k : A -> M B) : M B :=
  fun h tr =>
    match m h tr with
    | (Returned a, tr') => k a h tr'
    | (Threw e, tr') => (Threw e, tr')
    end.

(** [try { body } catch (e) { handler e }] *)
Definition try_catch {A : Type} (body : M A) (handler : Exn -> M A) : M A :=
  fun h tr =>
    match body h tr with
    | (Returned a, tr') => (Returned a, tr')
    | (Threw e, tr') => handler e h tr'
    end.

Definition emit (e : Event) : M unit := fun _ tr => (Returned tt, tr ++ [e]).

(** A host call that may reject. *)
Definition call {A : Type} (name : string) (f : Host -> option A) : M A :=
  fun h tr =>
    match f h with
    | Some a => (Returned a, tr)
    | None => (Threw (Rejected name), tr)
    end.

(** A host value. *)
Definition ask {A : Type} (f : Host -> A) : M A := fun h tr => (Returned (f h), tr).

#[export] Instance M_ret : MRet M := @ret.
#[export] Instance M_bind : MBind M := fun A B k m => bind m k.

(** Running a computation from an empty trace. *)
Definition run {A : Type} (m : M A) (h : Host) : Outcome A * list Event := m h [].

(** ** lib/utils: parseMarkdownToJson, parseTripData *)

Definition parseMarkdownToJson (markdownText : string) : M Json :=
  let match_ := regex_match markdownText in
  match match_ with
  | Some group1 =>
      if negb (String.eqb group1 "") then
        try_catch
          (call "JSON.parse" (fun h => JSON_parse h group1))
          (fun error =>
             emit (console_error "Error parsing JSON:");;
             mret JNull)
      else
        emit (console_error "No valid JSON found in markdown text.");;
        mret JNull
  | None =>
      emit (console_error "No valid JSON found in markdown text.");;
      mret JNull
  end.

(** [jsonString] is [None] when the field read was [undefined]:
    [JSON.parse(undefined)] throws. *)
Definition parseTripData (jsonString : option string) : M Json :=
  try_catch
    (call "JSON.parse" (fun h => jsonString ≫= JSON_parse h))
    (fun error =>
       emit (console_error "Failed to parse trip data:");;
       mret JNull).

(** ** SDK calls as the application issues them *)

Definition database_listDocuments (c : Collection) (queries : list Query)
  : M DocumentList :=
  emit (ev_listDocuments c queries);;
  call "listDocuments" (fun h => listDocuments h c queries).

(** The document id argument is [ID.unique()]: the store chooses it. *)
Definition database_createDocument (c : Collection) (data : Document)
  : M Document :=
  emit (ev_createDocument c data);;
  call "createDocument" (fun h => createDocument h c data).

(** [await fetch(...)]: the [ok] flag and the outcome of [json()]. *)
Definition do_fetch (r : Request) : M (bool * option Json) :=
  emit (ev_fetch r);;
  h ← ask id;
  match fetch h r with
  | NetworkError => throw (Rejected "fetch")
  | HttpResponse ok json => mret (ok, json)
  end.

(** [await response.json()] *)
Definition response_json (json : option Json) : M Json :=
  match json with
  | Some body => mret body
  | None => throw SyntaxError
  end.

(** [v.k] where [v] may be [null]: reading a property of [null] throws. *)
Definition member (v : Json) (k : string) : M (option Json) :=
  match v with
  | JNull => throw TypeError
  | _ => mret (prop v k)
  end.

(** [v?.k] *)
Definition opt_member (v : option Json) (k : string) : option Json :=
  match v with
  | None | Some JNull => None
  | Some j => prop j k
  end.

(** ** appwrite/auth *)

Definition getExistingUser (id : string) : M (option Document) :=
  try_catch
    (r ← database_listDocuments userCollection [Query_equal "accountId" id];
     mret (if bool_decide (total r > 0)%Z then head (documents r) else None))
    (fun error =>
       emit (console_error "Error fetching user:");;
       mret None).

Definition getGooglePicture (accessToken : string) : M Json :=
  try_catch
    (response ← do_fetch (GooglePeople accessToken);
     if negb (fst response) then
       throw (Error "Failed to fetch Google profile picture")
     else
       body ← response_json (snd response);
       photos ← member body "photos";
       let first :=
         match photos with
         | None | Some JNull => None
         | Some p => index0 p
         end in
       mret (or_null (opt_member first "url")))
    (fun error =>
       emit (console_error "Error fetching Google picture:");;
       mret JNull).

(** The fields storeUserData writes for a new profile. *)
Definition profile_data (user : Account) (profilePicture : Json) (joinedAt : string)
  : Document :=
  <["accountId" := JString (account_id user)]>
    (<["email" := JString (account_email user)]>
       (<["name" := JString (account_name user)]>
          (<["imageUrl" := profilePicture]>
             (<["joinedAt" := JString joinedAt]> ∅)))).

(** Resolves to [undefined] on every path.  The account object is never
    falsy, so [if (!user) throw] is not taken, and a resolved session makes
    [|| {}] idle.  The [redirect('/sign-in')] built when the created document
    has no [$id] is not returned and has no effect. *)
Definition storeUserData : M unit :=
  try_catch
    (user ← call "account.get" account_get;
     providerAccessToken ← call "account.getSession" account_getSession;
     profilePicture ←
       match providerAccessToken with
       | Some token =>
           if String.eqb token "" then mret JNull else getGooglePicture token
       | None => mret JNull
       end;
     joinedAt ← ask now_toISOString;
     createdUser ← database_createDocument userCollection
                     (profile_data user profilePicture joinedAt);
     mret tt)
    (fun error =>
       emit (console_error "Error storing user data:");;
       mret tt).

(** ** routes/admin/admin-layout: clientLoader *)

Inductive LoaderResult : Type :=
| redirect (path : string)
| loaded (data : option Document).

Definition clientLoader : M LoaderResult :=
  try_catch
    (user ← call "account.get" account_get;
     if String.eqb (account_id user) "" then mret (redirect "/sign-in")
     else
       existingUser ← getExistingUser (account_id user);
       if is_string (existingUser ≫= (.!! "status")) "user" then
         mret (redirect "/")
       else if truthy (existingUser ≫= (.!! "$id")) then
         mret (loaded existingUser)
       else
         storeUserData;;
         mret (loaded None))
    (fun e =>
       emit (console_log "Error in clientLoader");;
       mret (redirect "/sign-in")).

(** ** routes/api/create-trip: action *)

Inductive CreateTripResponse : Type :=
| resp_id (id : option Json)
| resp_error (error : string).

(** [f] over an array, stopping at the first exception. *)
Fixpoint mapM {A B : Type} (f : A -> M B) (l : list A) : M (list B) :=
  match l with
  | [] => mret []
  | x :: rest =>
      y ← f x;
      ys ← mapM f rest;
      mret (y :: ys)
  end.

(** [result.urls?.regular || null] *)
Definition regular_url (result : Json) : M Json :=
  urls ← member result "urls";
  mret (or_null (opt_member urls "regular")).

(** [body.results.slice(0, 3).map(...)]: anything but an array has no
    [slice] whose result has a [map]. *)
Definition image_urls (body : Json) : M (list Json) :=
  results ← member body "results";
  match results with
  | Some (JArray items) => mapM regular_url (take 3 items)
  | _ => throw TypeError
  end.

(** The data create-trip passes to [createDocument]; an [undefined] userId
    is left out by the serialisation of the call. *)
Definition trip_data (tripDetail createdAt : string) (imageUrls : list Json)
    (userId : option Json) : Document :=
  let d : Document :=
    <["tripDetail" := JString tripDetail]>
      (<["createdAt" := JString createdAt]>
         (<["imageUrls" := JArray imageUrls]> ∅)) in
  match userId with
  | Some u => <["userId" := u]> d
  | None => d
  end.

(** [request_json] is the outcome of [request.json()]; reading it and
    destructuring the body happen before the [try]. *)
Definition action (request_json : option Json) : M CreateTripResponse :=
  body ← response_json request_json;
  country ← member body "country";
  let numberOfDays := prop body "numberOfDays" in
  let travelStyle := prop body "travelStyle" in
  let interests := prop body "interests" in
  let budget := prop body "budget" in
  let groupType := prop body "groupType" in
  let userId := prop body "userId" in
  try_catch
    (let prompt :=
       {| prompt_numberOfDays := numberOfDays; prompt_country := country;
          prompt_budget := budget; prompt_interests := interests;
          prompt_travelStyle := travelStyle; prompt_groupType := groupType |} in
     emit (ev_generateContent prompt);;
     text ← call "generateContent" (fun h => generateContent h prompt);
     trip ← parseMarkdownToJson text;
     imageResponse ← do_fetch (PhotoSearch country travelStyle);
     photos ← response_json (snd imageResponse);
     imageUrls ← image_urls photos;
     tripDetail ← ask (fun h => JSON_stringify h trip);
     createdAt ← ask now_toISOString;
     result ← database_createDocument tripCollection
                (trip_data tripDetail createdAt imageUrls userId);
     mret (resp_id (result !! "$id")))
    (fun e =>
       emit (console_error "Error in creating trip ");;
       mret (resp_error "Failed to create trip")).

(** ** appwrite/trips: getAllTrips *)

Record AllTrips : Type := { allTrips : list Document; allTrips_total : Z }.

Definition getAllTrips (limit offset : number) : M AllTrips :=
  r ← database_listDocuments tripCollection
        [Query_limit limit; Query_offset offset; Query_orderDesc "createdAt"];
  if bool_decide (total r = 0)%Z then
    emit (console_error "No trips found");;
    mret {| allTrips := []; allTrips_total := 0 |}
  else
    mret {| allTrips := documents r; allTrips_total := total r |}.

(** ** routes/admin/trips: loader *)

Definition is_white_space (c : ascii) : bool :=
  let n := nat_of_ascii c in
  bool_decide (n = 32 \/ (9 <= n /\ n <= 13))%nat.

Definition digit_value (c : ascii) : option Z :=
  let n := nat_of_ascii c in
  if bool_decide (48 <= n /\ n <= 57)%nat then Some (Z.of_nat n - 48)%Z else None.

Fixpoint skip_white_space (s : string) : string :=
  match s with
  | String c rest => if is_white_space c then skip_white_space rest else s
  | EmptyString => s
  end.

(** The value of the longest prefix of decimal digits, given the value
    [acc] of the digits already read ([None]: none read yet). *)
Fixpoint digits_value (acc : option Z) (s : string) : option Z :=
  match s with
  | String c rest =>
      match digit_value c with
      | Some d => digits_value (Some (default 0 acc * 10 + d)%Z) rest
      | None => acc
      end
  | EmptyString => acc
  end.

(** [parseInt(s, 10)]: leading white space (the ASCII part of it), a sign,
    then the longest run of decimal digits; NaN when there is none. *)
Definition parseInt10 (s : string) : number :=
  let s := skip_white_space s in
  let (negative, s) :=
    match s with
    | String "-" rest => (true, rest)
    | String "+" rest => (false, rest)
    | _ => (false, s)
    end in
  match digits_value None s with
  | Some v => of_Z (if negative then - v else v)
  | None => NaN
  end.

(** [{...v}]: the own enumerable properties of a value. *)
Definition spread (v : Json) : list (string * Json) :=
  match v with
  | JObject fields => fields
  | JArray items => imap (fun i x => (pretty i, x)) items
  | JString s => imap (fun i c => (pretty i, JString (String c EmptyString)))
                   (list_ascii_of_string s)
  | _ => []
  end.

(** The string passed to [JSON.parse] for a field value: the field holds the
    string create-trip stored; a missing field reads as [undefined]. *)
Definition field_string (v : option Json) : option string :=
  match v with
  | Some (JString s) => Some s
  | _ => None
  end.

(** [v ?? []] *)
Definition or_empty_array (v : option Json) : Json :=
  match v with
  | None | Some JNull => JArray []
  | Some j => j
  end.

(** [{ id: $id, ...parseTripData(tripDetail), imageUrls: imageUrls ?? [] }] *)
Definition trip_row (doc : Document) : M Document :=
  parsed ← parseTripData (field_string (doc !! "tripDetail"));
  let id_field : Document :=
    match doc !! "$id" with
    | Some i => {[ "id" := i ]}
    | None => ∅
    end in
  mret (<["imageUrls" := or_empty_array (doc !! "imageUrls")]>
          (list_to_map (spread parsed) ∪ id_field)).

Record TripsPage : Type := { trips : list Document; page_total : Z }.

(** [page] is [url.searchParams.get('page')]. *)
Definition loader (page : option string) : M TripsPage :=
  let limit := of_Z 8 in
  let page :=
    parseInt10 (match page with
                | Some p => if String.eqb p "" then "1" else p
                | None => "1"
                end) in
  let offset := mul (sub page (of_Z 1)) limit in
  r ← getAllTrips limit offset;
  rows ← mapM trip_row (allTrips r);
  mret {| trips := rows; page_total := allTrips_total r |}.

(** ** appwrite/dashboard *)

Record MonthCounts : Type := { currentMonth : Z; lastMonth : Z }.

Record RoleCounts : Type :=
  { role_total : Z; role_currentMonth : Z; role_lastMonth : Z }.

Record DashboardStats : Type :=
  { totalUsers : Z;
    usersJoined : MonthCounts;
    userRole : RoleCounts;
    totalTrips : Z;
    tripsCreated : MonthCounts }.

(** [item[key] >= start] and [item[key] <= end] against an ISO timestamp:
    two strings compare by code units; a missing field, [null], a number or
    a boolean compares false.  (Date fields hold strings.) *)
Definition field_ge (v : option Json) (start : string) : bool :=
  match v with
  | Some (JString s) => str_ge s start
  | _ => false
  end.

Definition field_le (v : option Json) (end_ : string) : bool :=
  match v with
  | Some (JString s) => str_le s end_
  | _ => false
  end.

(** [!end] *)
Definition no_end (end_ : option string) : bool :=
  match end_ with
  | None => true
  | Some e => String.eqb e ""
  end.

Definition in_range (key start : string) (end_ : option string) (item : Document)
  : bool :=
  field_ge (item !! key) start
  && (no_end end_ || field_le (item !! key) (default "" end_)).

Definition filterByDate (items : list Document) (key start : string)
    (end_ : option string) : Z :=
  Z.of_nat (length (List.filter (in_range key start end_) items)).

Definition filterUsersByRole (users : DocumentList) (role : string)
  : list Document :=
  List.filter (fun u => is_string (u !! "status") role) (documents users).

(** Both listings are requested before either is awaited. *)
Definition getUsersAndTripsStats : M DashboardStats :=
  b ← ask monthBounds;
  emit (ev_listDocuments userCollection []);;
  emit (ev_listDocuments tripCollection []);;
  users ← call "listDocuments" (fun h => listDocuments h userCollection []);
  trips ← call "listDocuments" (fun h => listDocuments h tripCollection []);
  mret
    {| totalUsers := total users;
       usersJoined :=
         {| currentMonth :=
              filterByDate (documents users) "joinedAt" (startCurrent b) None;
            lastMonth :=
              filterByDate (documents users) "joinedAt" (startPrev b)
                (Some (endPrev b)) |};
       userRole :=
         {| role_total := Z.of_nat (length (filterUsersByRole users "user"));
            role_currentMonth :=
              filterByDate (filterUsersByRole users "user") "joinedAt"
                (startCurrent b) None;
            role_lastMonth :=
              filterByDate (filterUsersByRole users "user") "joinedAt"
                (startPrev b) (Some (endPrev b)) |};
       totalTrips := total trips;
       tripsCreated :=
         {| currentMonth :=
              filterByDate (documents trips) "createdAt" (startCurrent b) None;
            lastMonth :=
              filterByDate (filterUsersByRole users "user") "joinedAt"
                (startPrev b) (Some (endPrev b)) |} |}.

(** The accumulator object of the [reduce]: keys in insertion order. *)
Fixpoint acc_set (acc : list (string * Z)) (k : string) (v : Z)
  : list (string * Z) :=
  match acc with
  | [] => [(k, v)]
  | (k', v') :: rest =>
      if String.eqb k' k then (k', v) :: rest else (k', v') :: acc_set rest k v
  end.

(** [acc[day] = (acc[day] || 0) + 1] *)
Definition bump (acc : list (string * Z)) (day : string) : list (string * Z) :=
  let old := match assoc day acc with
             | Some n => if bool_decide (n = 0)%Z then 0%Z else n
             | None => 0%Z
             end in
  acc_set acc day (old + 1)%Z.

Record GrowthEntry : Type := { count : Z; day : string }.

Definition user_day (h : Host) (user : Document) : string :=
  toLocaleDateString h (user !! "joinedAt").

(** The [reduce] and the [Object.entries(...).map(...)] of getUserGrowthPerDay
    over the listed documents. *)
Definition userGrowth (h : Host) (users : list Document) : list (string * Z) :=
  fold_left (fun acc user => bump acc (user_day h user)) users [].

Definition growth_entries (acc : list (string * Z)) : list GrowthEntry :=
  map (fun '(day, count) => {| count := count; day := day |}) acc.

Definition getUserGrowthPerDay : M (list GrowthEntry) :=
  users ← database_listDocuments userCollection [];
  h ← ask id;
  mret (growth_entries (userGrowth h (documents users))).

(** ** routes/admin/create-trip: handleSubmit *)

(** [try { body } finally { after }] *)
Definition try_finally {A : Type} (body : M A) (after : M unit) : M A :=
  fun h tr =>
    match body h tr with
    | (r, tr') =>
        match after h tr' with
        | (Returned _, tr'') => (r, tr'')
        | (Threw e, tr'') => (Threw e, tr'')
        end
    end.

(** [!s] for a string *)
Definition blank (s : string) : bool := String.eqb s "".

Definition handleSubmit (formData : TripFormData) : M unit :=
  emit (ev_setLoading true);;
  if blank (country formData)
     || blank (travelStyle formData)
     || blank (interest formData)
     || blank (budget formData)
     || blank (groupType formData)
  then
    emit (ev_setError "Please fill in all fields");;
    emit (ev_setLoading false)
  else if lt (duration formData) (of_Z 1) || gt (duration formData) (of_Z 10)
  then
    emit (ev_setError "Duration must be between 1 and 10 days");;
    emit (ev_setLoading false)
  else
    user ← call "account.get" account_get;
    if blank (account_id user) then
      emit (console_error "User not authenticated");;
      emit (ev_setLoading false)
    else
      try_finally
        (try_catch
           (response ← do_fetch (CreateTripApi formData (account_id user));
            result ← response_json (snd response);
            let id := opt_member (Some result) "id" in
            if truthy id then emit (ev_navigate "/trips/" (or_null id))
            else emit (console_error "failed to generate a trip"))
           (fun e => emit (console_error "Error creating trip:")))
        (emit (ev_setLoading false)).

(** ** A reference host

    [JSON.parse] and [JSON.stringify] for ASCII text, used where a concrete
    host is needed.  Numbers are exact; they are printed in plain decimal
    notation (integers, and fractions up to 17 places). *)

Module RefJSON.

Definition dquote : ascii := "034"%char.
Definition backslash : ascii := "092"%char.

Local Open Scope Z_scope.

(** *** Printing *)

Definition hex_digit (n : nat) : ascii :=
  ascii_of_nat (if bool_decide (n < 10)%nat then 48 + n else 87 + n).

Definition escape_char (c : ascii) : string :=
  let n := nat_of_ascii c in
  if Ascii.eqb c dquote then String backslash (String dquote EmptyString)
  else if Ascii.eqb c backslash then String backslash (String backslash EmptyString)
  else if bool_decide (n = 8)%nat then String backslash "b"
  else if bool_decide (n = 9)%nat then String backslash "t"
  else if bool_decide (n = 10)%nat then String backslash "n"
  else if bool_decide (n = 12)%nat then String backslash "f"
  else if bool_decide (n = 13)%nat then String backslash "r"
  else if bool_decide (n < 32)%nat then
    String backslash
      ("u00" +:+ String (hex_digit (n / 16)) (String (hex_digit (n mod 16)) EmptyString))
  else String c EmptyString.

Fixpoint escape (s : string) : string :=
  match s with
  | EmptyString => EmptyString
  | String c rest => escape_char c +:+ escape rest
  end.

Definition quote (s : string) : string :=
  String dquote (escape s +:+ String dquote EmptyString).

(** The digits of [r / d] after the decimal point, [places] of them. *)
Fixpoint fraction_digits (places : nat) (r d : Z) : list Z :=
  match places with
  | O => []
  | S places =>
      if bool_decide (r = 0) then []
      else (r * 10 / d) :: fraction_digits places (r * 10 mod d) d
  end.

Definition digits_text (ds : list Z) : string :=
  string_of_list_ascii (map (fun d => ascii_of_nat (48 + Z.to_nat d)) ds).

Definition number_text (n : number) : string :=
  match n with
  | Finite q =>
      let num := Qnum q in
      let den := Z.pos (Qden q) in
      let whole := Z.abs num / den in
      let frac := fraction_digits 17 (Z.abs num mod den) den in
      (if bool_decide (num < 0) then "-" else "")
      +:+ pretty whole
      +:+ (match frac with [] => "" | _ => "." +:+ digits_text frac end)
  | NaN | Infinity _ => "null"
  end.

Fixpoint stringify (v : Json) : string :=
  match v with
  | JNull => "null"
  | JBool true => "true"
  | JBool false => "false"
  | JNumber n => number_text n
  | JString s => quote s
  | JArray items =>
      "[" +:+
      (fix go (l : list Json) : string :=
         match l with
         | [] => ""
         | x :: rest =>
             stringify x +:+ (match rest with [] => "" | _ => "," +:+ go rest end)
         end) items
      +:+ "]"
  | JObject fields =>
      "{" +:+
      (fix go (l : list (string * Json)) : string :=
         match l with
         | [] => ""
         | (k, x) :: rest =>
             quote k +:+ ":" +:+ stringify x
             +:+ (match rest with [] => "" | _ => "," +:+ go rest end)
         end) fields
      +:+ "}"
  end.

(** *** Parsing *)

Definition is_json_space (c : ascii) : bool :=
  let n := nat_of_ascii c in
  bool_decide (n = 32 \/ n = 9 \/ n = 10 \/ n = 13)%nat.

Fixpoint skip_space (s : string) : string :=
  match s with
  | String c rest => if is_json_space c then skip_space rest else s
  | EmptyString => s
  end.

(** A run of decimal digits: their value, how many, and the rest. *)
Fixpoint digit_run (acc : Z) (n : nat) (s : string) : Z * nat * string :=
  match s with
  | String c rest =>
      match digit_value c with
      | Some d => digit_run (acc * 10 + d) (S n) rest
      | None => (acc, n, s)
      end
  | EmptyString => (acc, n, s)
  end.

Definition scale (q : Qc) (e : Z) : Qc :=
  if bool_decide (0 <= e)
  then (q * Qc_of_Z (10 ^ e))%Qc
  else (q / Qc_of_Z (10 ^ (- e)))%Qc.

(** [-? int frac? exp?], with no leading zero in [int]. *)
Definition parse_number (s : string) : option (number * string) :=
  let (negative, s) :=
    match s with
    | String "-" rest => (true, rest)
    | _ => (false, s)
    end in
  let '(whole, n, s1) := digit_run 0 0 s in
  let leading_zero :=
    match s with
    | String "0" _ => bool_decide (1 < n)%nat
    | _ => false
    end in
  if bool_decide (n = 0)%nat || leading_zero then None
  else
    frac ← match s1 with
           | String "." rest =>
               let '(f, m, s2) := digit_run 0 0 rest in
               if bool_decide (m = 0)%nat then None
               else Some ((Qc_of_Z f / Qc_of_Z (10 ^ Z.of_nat m))%Qc, s2)
           | _ => Some (Qc_of_Z 0, s1)
           end;
    let '(f, s2) := frac in
    ex ← match s2 with
         | String c rest =>
             if Ascii.eqb c "e" || Ascii.eqb c "E" then
               let (neg_exp, rest) :=
                 match rest with
                 | String "-" r => (true, r)
                 | String "+" r => (false, r)
                 | _ => (false, rest)
                 end in
               let '(e, m, s3) := digit_run 0 0 rest in
               if bool_decide (m = 0)%nat then None
               else Some (if neg_exp then - e else e, s3)
             else Some (0, s2)
         | EmptyString => Some (0, s2)
         end;
    let '(e, s3) := ex in
    let magnitude := scale (Qc_of_Z whole + f)%Qc e in
    Some (Finite (if negative then (- magnitude)%Qc else magnitude), s3).

Definition unescape (c : ascii) : option ascii :=
  if Ascii.eqb c dquote then Some dquote
  else if Ascii.eqb c backslash then Some backslash
  else if Ascii.eqb c "/" then Some "/"%char
  else if Ascii.eqb c "b" then Some "008"%char
  else if Ascii.eqb c "t" then Some "009"%char
  else if Ascii.eqb c "n" then Some "010"%char
  else if Ascii.eqb c "f" then Some "012"%char
  else if Ascii.eqb c "r" then Some "013"%char
  else None.

(** The characters up to the closing quote ([\u] escapes are not read). *)
Fixpoint parse_string (s : string) : option (string * string) :=
  match s with
  | EmptyString => None
  | String c rest =>
      if Ascii.eqb c dquote then Some (EmptyString, rest)
      else if Ascii.eqb c backslash then
        match rest with
        | String e rest' =>
            c' ← unescape e;
            '(str, r) ← parse_string rest';
            Some (String c' str, r)
        | EmptyString => None
        end
      else if bool_decide (nat_of_ascii c < 32)%nat then None
      else
        '(str, r) ← parse_string rest;
        Some (String c str, r)
  end.

(** A later duplicate of a key replaces the value of the earlier one. *)
Fixpoint set_field (fields : list (string * Json)) (k : string) (v : Json)
  : list (string * Json) :=
  match fields with
  | [] => [(k, v)]
  | (k', v') :: rest =>
      if String.eqb k' k then (k', v) :: rest
      else (k', v') :: set_field rest k v
  end.

Fixpoint parse_value (fuel : nat) (s : string) : option (Json * string) :=
  match fuel with
  | O => None
  | S fuel =>
      match skip_space s with
      | String "n" rest => r ← strip_prefix "ull" rest; Some (JNull, r)
      | String "t" rest => r ← strip_prefix "rue" rest; Some (JBool true, r)
      | String "f" rest => r ← strip_prefix "alse" rest; Some (JBool false, r)
      | String "[" rest =>
          match skip_space rest with
          | String "]" r => Some (JArray [], r)
          | _ =>
              '(items, r) ← parse_items fuel rest;
              Some (JArray items, r)
          end
      | String "{" rest =>
          match skip_space rest with
          | String "}" r => Some (JObject [], r)
          | _ =>
              '(fields, r) ← parse_members fuel [] rest;
              Some (JObject fields, r)
          end
      | String c rest =>
          if Ascii.eqb c dquote then
            '(str, r) ← parse_string rest;
            Some (JString str, r)
          else
            '(n, r) ← parse_number (String c rest);
            Some (JNumber n, r)
      | EmptyString => None
      end
  end
with parse_items (fuel : nat) (s : string) : option (list Json * string) :=
  match fuel with
  | O => None
  | S fuel =>
      '(v, r) ← parse_value fuel s;
      match skip_space r with
      | String "," r' =>
          '(vs, r'') ← parse_items fuel r';
          Some (v :: vs, r'')
      | String "]" r' => Some ([v], r')
      | _ => None
      end
  end
with parse_members (fuel : nat) (acc : list (string * Json)) (s : string)
  : option (list (string * Json) * string) :=
  match fuel with
  | O => None
  | S fuel =>
      match skip_space s with
      | String c rest =>
          if Ascii.eqb c dquote then
            '(k, r) ← parse_string rest;
            match skip_space r with
            | String ":" r1 =>
                '(v, r2) ← parse_value fuel r1;
                let acc := set_field acc k v in
                match skip_space r2 with
                | String "," r3 => parse_members fuel acc r3
                | String "}" r3 => Some (acc, r3)
                | _ => None
                end
            | _ => None
            end
          else None
      | EmptyString => None
      end
  end.

Definition parse (s : string) : option Json :=
  '(v, r) ← parse_value (2 * String.length s + 2) s;
  match skip_space r with
  | EmptyString => Some v
  | _ => None
  end.

End RefJSON.

(** The label of an ISO timestamp [YYYY-MM-DD...] on a host whose time zone
    is UTC; other strings do not name a date.  [new Date(null)] is the epoch. *)
Definition ref_toLocaleDateString (v : option Json) : string :=
  match v with
  | Some (JString s) =>
      let month := digits_value None (String.substring 5 2 s) in
      let day_ := digits_value None (String.substring 8 2 s) in
      let dashes := String.eqb (String.substring 4 1 s) "-"
                    && String.eqb (String.substring 7 1 s) "-" in
      match month, day_ with
      | Some m, Some d =>
          match ["Jan"; "Feb"; "Mar"; "Apr"; "May"; "Jun";
                 "Jul"; "Aug"; "Sep"; "Oct"; "Nov"; "Dec"] !! Z.to_nat (m - 1) with
          | Some name =>
              if dashes && bool_decide (1 <= m /\ 1 <= d <= 31)%Z
              then name +:+ " " +:+ pretty d
              else "Invalid Date"
          | None => "Invalid Date"
          end
      | _, _ => "Invalid Date"
      end
  | Some JNull => "Jan 1"
  | _ => "Invalid Date"
  end.

(** A host on 30 August 2025 (UTC), given its session, store, model and
    network. *)
Definition ref_host
    (session : option Account)
    (list_ : Collection -> list Query -> option DocumentList)
    (create : Collection -> Document -> option Document)
    (model : Prompt -> option string)
    (network : Request -> FetchResult) : Host :=
  {| JSON_parse := RefJSON.parse;
     JSON_stringify := RefJSON.stringify;
     now_toISOString := "2025-08-30T09:15:00.000Z";
     monthBounds :=
       {| startCurrent := "2025-08-01T00:00:00.000Z";
          startPrev := "2025-07-01T00:00:00.000Z";
          endPrev := "2025-07-31T00:00:00.000Z" |};
     toLocaleDateString := ref_toLocaleDateString;
     account_get := session;
     account_getSession := (fun _ => None) <$> session;
     listDocuments := list_;
     createDocument := create;
     generateContent := model;
     fetch := network |}.

(** A store that accepts every document and answers with the stored
    document under a generated id. *)
Definition accepting_store (c : Collection) (data : Document) : option Document :=
  Some (<["$id" := JString "68b21eb500253ed84e76"]> data).

Definition empty_store (c : Collection) (queries : list Query) : option DocumentList :=
  Some {| documents := []; total := 0 |}.

(** An itinerary in a fenced block, as the pattern expects it. *)
Definition fenced_reply : string :=
  "Here is your itinerary:" +:+ newline +:+ fence_open
  +:+ "{" +:+ RefJSON.quote "itinerary" +:+ ": [{"
  +:+ RefJSON.quote "day" +:+ ": 1}]}"
  +:+ fence_close +:+ newline.

(** The same itinerary as bare JSON, which is what the prompt asks for
    ("Return ONLY valid JSON (no markdown, no code blocks)"). *)
Definition bare_reply : string :=
  "{" +:+ RefJSON.quote "itinerary" +:+ ": [{"
  +:+ RefJSON.quote "day" +:+ ": 1}]}".

(** A fenced reply whose itinerary has no days. *)
Definition empty_itinerary_reply : string :=
  fence_open +:+ "{" +:+ RefJSON.quote "itinerary" +:+ ": []}" +:+ fence_close.

(** A request body as the create-trip page posts it. *)
Definition sample_request : Json :=
  JObject [("country", JString "Japan");
           ("numberOfDays", JNumber (of_Z 3));
           ("travelStyle", JString "Cultural");
           ("interests", JString "Food & Culinary");
           ("budget", JString "Mid-range");
           ("groupType", JString "Couple");
           ("userId", JString "66f0a1c2000d3b7e9a11")].

(** A photo search that finds nothing. *)
Definition no_photos (r : Request) : FetchResult :=
  HttpResponse true (Some (JObject [("total", JNumber (of_Z 0)); ("results", JArray [])])).

(** A network on which every request fails. *)
Definition offline (r : Request) : FetchResult := NetworkError.

Definition sample_account : Account :=
  {| account_id := "66f0a1c2000d3b7e9a11";
     account_email := "gray@example.com";
     account_name := "Gray Doe" |}.

(** A stored profile with the given role. *)
Definition sample_profile (role : string) : Document :=
  <["$id" := JString "670f3c1a0019d2a4b6e3"]>
    (<["status" := JString role]>
       (profile_data sample_account JNull "2025-07-31T18:40:00.000Z")).

(** A store whose every listing answers with the one document [doc]. *)
Definition store_with (doc : Document) (c : Collection) (queries : list Query)
  : option DocumentList :=
  Some {| documents := [doc]; total := 1 |}.

(** A user document with the given role and join time. *)
Definition sample_user (role joinedAt : string) : Document :=
  <["status" := JString role]> (profile_data sample_account JNull joinedAt).

(** A trip document created at the given time. *)
Definition sample_trip (createdAt : string) : Document :=
  trip_data "null" createdAt [] None.

(** A store with three users and two trips. *)
Definition sample_store (c : Collection) (queries : list Query)
  : option DocumentList :=
  match c with
  | userCollection =>
      Some {| documents := [sample_user "user" "2025-07-04T10:00:00.000Z";
                            sample_user "admin" "2025-07-04T11:30:00.000Z";
                            sample_user "user" "2025-08-02T08:00:00.000Z"];
              total := 3 |}
  | tripCollection =>
      Some {| documents := [sample_trip "2025-07-10T12:00:00.000Z";
                            sample_trip "2025-07-20T12:00:00.000Z"];
              total := 2 |}
  end.

(** The form after "abc" was typed into the duration box:
    [Number("abc")] is NaN. *)
Definition sample_form (d : number) : TripFormData :=
  {| country := "Japan";
     travelStyle := "Cultural";
     interest := "Food & Culinary";
     duration := d;
     budget := "Mid-range";
     groupType := "Couple" |}.

(** A network on which the create-trip endpoint answers with an id. *)
Definition api_answers (r : Request) : FetchResult :=
  HttpResponse true (Some (JObject [("id", JString "68b21eb500253ed84e76")])).

(** ** Notions of the specification *)


(** A fenced block of [s]: an opening [```json] line, a non-empty content,
    and a closing fence on a line of its own. *)
Definition fenced (s pre body post : string) : Prop :=
  body <> "" /\ s = pre +:+ fence_open +:+ body +:+ fence_close +:+ post.

(** The first fenced block: the one that opens leftmost and, among those,
    closes first. *)
Definition first_fenced_block (s body : string) : Prop :=
  exists pre post,
    fenced s pre body post /\
    forall pre' body' post',
      fenced s pre' body' post' ->
      String.length pre < String.length pre' \/
      (String.length pre = String.length pre' /\
       String.length body <= String.length body').

(** The documents a run asked the store to create in collection [c]. *)
Definition created (c : Collection) (tr : list Event) : list Document :=
  omap (fun e =>
          match e with
          | ev_createDocument userCollection d =>
              if c is userCollection then Some d else None
          | ev_createDocument tripCollection d =>
              if c is tripCollection then Some d else None
          | _ => None
          end) tr.

(** The prompt create-trip sends for a request body. *)
Definition prompt_of (body : Json) : Prompt :=
  {| prompt_numberOfDays := prop body "numberOfDays";
     prompt_country := prop body "country";
     prompt_budget := prop body "budget";
     prompt_interests := prop body "interests";
     prompt_travelStyle := prop body "travelStyle";
     prompt_groupType := prop body "groupType" |}.

(** The photo search create-trip issues for a request body. *)
Definition photo_search_of (body : Json) : Request :=
  PhotoSearch (prop body "country") (prop body "travelStyle").

(** The itinerary stored in a trip document, as the pages read it back, has
    a non-empty day list. *)
Definition has_day_list (h : Host) (doc : Document) : bool :=
  match field_string (doc !! "tripDetail") ≫= JSON_parse h with
  | Some (JObject fields) =>
      match assoc "itinerary" fields with
      | Some (JArray (_ :: _)) => true
      | _ => false
      end
  | _ => false
  end.

(** The role of a profile document is one of the two known values. *)
Definition role_known (doc : Document) : bool :=
  is_string (doc !! "status") "user" || is_string (doc !! "status") "admin".

(** The [try] block and the [catch] block of create-trip's action, as
    functions of what the action read from the request. *)
Definition action_try (prompt : Prompt) (search : Request) (userId : option Json)
  : M CreateTripResponse :=
  emit (ev_generateContent prompt);;
  text ← call "generateContent" (fun h => generateContent h prompt);
  trip ← parseMarkdownToJson text;
  imageResponse ← do_fetch search;
  photos ← response_json (snd imageResponse);
  imageUrls ← image_urls photos;
  tripDetail ← ask (fun h => JSON_stringify h trip);
  createdAt ← ask now_toISOString;
  result ← database_createDocument tripCollection
             (trip_data tripDetail createdAt imageUrls userId);
  mret (resp_id (result !! "$id")).

Definition action_catch (e : Exn) : M CreateTripResponse :=
  emit (console_error "Error in creating trip ");;
  mret (resp_error "Failed to create trip").

(** An event other than a request to create a document. *)
Definition no_write (e : Event) : Prop :=
  match e with
  | ev_createDocument _ _ => False
  | _ => True
  end.


(** The trip documents whose [createdAt] lies in the same window. *)
Definition trips_created_last_month (b : MonthBounds) (trips : list Document) : Z :=
  Z.of_nat
    (length
       (List.filter
          (fun t => field_ge (t !! "createdAt") (startPrev b)
                    && field_le (t !! "createdAt") (endPrev b))
          trips)).

(** The users whose day label is [label]. *)
Definition joined_on (h : Host) (label : string) (users : list Document)
  : list Document :=
  List.filter (fun u => String.eqb (user_day h u) label) users.

Definition sum_values (acc : list (string * Z)) : Z :=
  fold_right Z.add 0%Z (map snd acc).

Definition sum_counts (entries : list GrowthEntry) : Z :=
  fold_right Z.add 0%Z (map count entries).

(** *** Statements of the specification that the code does not meet *)

(** "If image enrichment fails, the itinerary is still persisted with no
    images": whenever the request is readable, the model has answered and the
    photo search fails, the action asks the store to create the itinerary. *)
Definition persisted_despite_image_failure : Prop :=
  forall (h : Host) (body : Json) (reply : string),
    body <> JNull ->
    generateContent h (prompt_of body) = Some reply ->
    fetch h (photo_search_of body) = NetworkError ->
    exists d,
      created tripCollection (snd (run (action (Some body)) h)) = [d] /\
      d !! "imageUrls" = Some (JArray []).

(** "Every itinerary has a non-empty day list", enforced by the application:
    every trip document create-trip has stored has one. *)
Definition itineraries_have_days : Prop :=
  forall (h : Host) (request_json : option Json) (d doc : Document),
    d ∈ created tripCollection (snd (run (action request_json) h)) ->
    createDocument h tripCollection d = Some doc ->
    has_day_list h doc = true.

(** "Role is one of two known values", enforced by the application: every
    profile document storeUserData has stored has a known role. *)
Definition profiles_have_roles : Prop :=
  forall (h : Host) (d doc : Document),
    d ∈ created userCollection (snd (run storeUserData h)) ->
    createDocument h userCollection d = Some doc ->
    role_known doc = true.

(** A string of decimal digits. *)
Fixpoint all_digits (s : string) : bool :=
  match s with
  | EmptyString => true
  | String c rest => bool_decide (is_Some (digit_value c)) && all_digits rest
  end.

(** The [page] parameter of a request for page [n] of the trips listing. *)
Definition page_param (n : N) : option string := Some (pretty n).


(** Every required field of the form is filled in. *)
Definition fields_filled (f : TripFormData) : bool :=
  negb (blank (country f)) && negb (blank (travelStyle f))
  && negb (blank (interest f)) && negb (blank (budget f))
  && negb (blank (groupType f)).

(** [1 <= n <= 10] for a JavaScript number: NaN is not in the range. *)
Definition in_days_range (n : number) : Prop :=
  exists q, n = Finite q /\ (Qc_of_Z 1 <= q)%Qc /\ (q <= Qc_of_Z 10)%Qc.

(** "The request to the trip-generation API is issued only when every
    required field is non-empty and 1 <= duration <= 10". *)
Definition submission_validated : Prop :=
  forall (h : Host) (f : TripFormData) (userId : string),
    ev_fetch (CreateTripApi f userId) ∈ snd (run (handleSubmit f) h) ->
    fields_filled f = true /\ in_days_range (duration f).

(** ** lib/utils: getFirstWord, formatKey *)

(** [s.trim()], for the ASCII part of the white-space class. *)
Fixpoint trim_end (s : string) : string :=
  match s with
  | EmptyString => EmptyString
  | String c rest =>
      match trim_end rest with
      | EmptyString => if is_white_space c then EmptyString else String c EmptyString
      | rest' => String c rest'
      end
  end.

Definition trim (s : string) : string := trim_end (skip_white_space s).

(** [s.split(/\s+/)]: the pieces between maximal runs of white space;
    [in_run] tells that the previous character was white space. *)
Fixpoint split_white_space (in_run : bool) (s : string) : list string :=
  match s with
  | EmptyString => [EmptyString]
  | String c rest =>
      if is_white_space c then
        if in_run then split_white_space true rest
        else EmptyString :: split_white_space true rest
      else
        match split_white_space false rest with
        | piece :: pieces => String c piece :: pieces
        | [] => [String c EmptyString]
        end
  end.

(** [input] is [None] when the argument is left out: it defaults to ['']. *)
Definition getFirstWord (input : option string) : string :=
  match head (split_white_space false (trim (default "" input))) with
  | Some word => if String.eqb word "" then "" else word
  | None => ""
  end.

Definition is_upper (c : ascii) : bool :=
  let n := nat_of_ascii c in bool_decide (65 <= n /\ n <= 90)%nat.

Definition is_lower (c : ascii) : bool :=
  let n := nat_of_ascii c in bool_decide (97 <= n /\ n <= 122)%nat.

(** [c.toUpperCase()] for an ASCII character. *)
Definition toUpperCase (c : ascii) : ascii :=
  if is_lower c then ascii_of_nat (nat_of_ascii c - 32) else c.

(** [key.replace(/([A-Z])/g, ' $1')] *)
Fixpoint space_capitals (key : string) : string :=
  match key with
  | EmptyString => EmptyString
  | String c rest =>
      if is_upper c then String " " (String c (space_capitals rest))
      else String c (space_capitals rest)
  end.

(** [s.replace(/^./, (str) => str.toUpperCase())]: [.] does not match a
    line terminator. *)
Definition capitalize (s : string) : string :=
  match s with
  | EmptyString => EmptyString
  | String c rest =>
      if bool_decide (nat_of_ascii c = 10 \/ nat_of_ascii c = 13)%nat then s
      else String (toUpperCase c) rest
  end.

Definition formatKey (key : string) : string :=
  capitalize (space_capitals key).

(** ** appwrite/auth: getUser, getAllUsers *)

Definition getUser : M LoaderResult :=
  try_catch
    (user ← call "account.get" account_get;
     r ← database_listDocuments userCollection
           [Query_equal "accountId" (account_id user);
            Query_select ["name"; "email"; "imageUrl"; "joinedAt"; "accountId"]];
     mret (match head (documents r) with
           | Some profile => loaded (Some profile)
           | None => redirect "/sign-in"
           end))
    (fun error =>
       emit (console_error "Error fetching user:");;
       mret (loaded None)).

Record AllUsers : Type := { users : list Document; users_total : Z }.

Definition getAllUsers (limit offset : number) : M AllUsers :=
  try_catch
    (r ← database_listDocuments userCollection
           [Query_limit limit; Query_offset offset];
     if bool_decide (total r = 0)%Z then
       mret {| users := []; users_total := total r |}
     else
       mret {| users := documents r; users_total := total r |})
    (fun e =>
       emit (console_log "Error fetching users");;
       mret {| users := []; users_total := 0 |}).

(** ** routes/root/sign-in: clientLoader *)

Module SignIn.

(** Resolves to [undefined] ([loaded None]) unless it redirects. *)
Definition clientLoader : M LoaderResult :=
  try_catch
    (user ← call "account.get" account_get;
     if negb (blank (account_id user)) then mret (redirect "/")
     else mret (loaded None))
    (fun e =>
       emit (console_log "Error fetching user");;
       mret (loaded None)).

End SignIn.

(** ** appwrite/dashboard: getTripsCreatedPerDay *)

Definition trip_day (h : Host) (trip : Document) : string :=
  toLocaleDateString h (trip !! "createdAt").

Definition tripsGrowth (h : Host) (trips : list Document) : list (string * Z) :=
  fold_left (fun acc trip => bump acc (trip_day h trip)) trips [].

Definition getTripsCreatedPerDay : M (list GrowthEntry) :=
  trips ← database_listDocuments tripCollection [];
  h ← ask id;
  mret (growth_entries (tripsGrowth h (documents trips))).

(** ** Notions used by the further properties *)

(** A text without a backtick. *)
Fixpoint no_backtick (s : string) : bool :=
  match s with
  | EmptyString => true
  | String c rest => negb (Ascii.eqb c "`") && no_backtick rest
  end.

(** A text without white space. *)
Fixpoint no_white_space (s : string) : bool :=
  match s with
  | EmptyString => true
  | String c rest => negb (is_white_space c) && no_white_space rest
  end.

(** A text of white space only. *)
Fixpoint all_white_space (s : string) : bool :=
  match s with
  | EmptyString => true
  | String c rest => is_white_space c && all_white_space rest
  end.

(** A text of ASCII characters only. *)
Fixpoint ascii_text (s : string) : bool :=
  match s with
  | EmptyString => true
  | String c rest => bool_decide (nat_of_ascii c < 128)%nat && ascii_text rest
  end.

(** The longest prefix without white space. *)
Fixpoint first_run (s : string) : string :=
  match s with
  | EmptyString => EmptyString
  | String c rest => if is_white_space c then EmptyString else String c (first_run rest)
  end.

(** An identifier in camel case: ASCII letters, the first one lower case. *)
Fixpoint letters (s : string) : bool :=
  match s with
  | EmptyString => true
  | String c rest => (is_upper c || is_lower c) && letters rest
  end.

Definition camel_case (s : string) : bool :=
  match s with
  | EmptyString => false
  | String c rest => is_lower c && letters rest
  end.

(** [c.toLowerCase()] for an ASCII character. *)
Definition toLowerCase (c : ascii) : ascii :=
  if is_upper c then ascii_of_nat (nat_of_ascii c + 32) else c.

(** Reading a label back as a key: drop the blanks, lower the first letter. *)
Fixpoint drop_blanks (s : string) : string :=
  match s with
  | EmptyString => EmptyString
  | String c rest =>
      if Ascii.eqb c " " then drop_blanks rest else String c (drop_blanks rest)
  end.

Definition unformatKey (label : string) : string :=
  match drop_blanks label with
  | EmptyString => EmptyString
  | String c rest => String (toLowerCase c) rest
  end.

(** The number of capital letters of a text. *)
Fixpoint capitals (s : string) : nat :=
  match s with
  | EmptyString => 0
  | String c rest => (if is_upper c then 1 else 0) + capitals rest
  end.

(** What create-trip stores for one photo of the search result. *)
Definition stored_url (result : Json) : Json :=
  or_null (opt_member (prop result "urls") "regular").

(** A console message. *)
Definition is_console (e : Event) : Prop :=
  match e with
  | console_error _ | console_log _ => True
  | _ => False
  end.

(** The store listings a run asked for. *)
Definition listed (tr : list Event) : list (Collection * list Query) :=
  omap (fun e =>
          match e with
          | ev_listDocuments c queries => Some (c, queries)
          | _ => None
          end) tr.

(** The outbound requests of a run. *)
Definition fetched (tr : list Event) : list Request :=
  omap (fun e => match e with ev_fetch r => Some r | _ => None end) tr.

Definition is_null (v : Json) : bool :=
  match v with
  | JNull => true
  | _ => false
  end.

(** The image list create-trip derives from the body of the photo search,
    when it derives one: the first three results must not hold [null]. *)
Definition photo_urls (photos : Json) : option (list Json) :=
  match prop photos "results" with
  | Some (JArray items) =>
      if existsb is_null (take 3 items) then None
      else Some (map stored_url (take 3 items))
  | _ => None
  end.

(** A value that is [null] or truthy. *)
Definition null_or_truthy (v : Json) : Prop :=
  v = JNull \/ truthy (Some v) = true.

(** A photo search with two results, the second without a [urls] object. *)
Definition two_photos (r : Request) : FetchResult :=
  HttpResponse true
    (Some (JObject
             [("total", JNumber (of_Z 2));
              ("results",
               JArray [JObject [("urls",
                                 JObject [("regular",
                                           JString "https://images.example/kyoto.jpg")])];
                       JObject [("id", JString "Zk3v9")]])])).

(** The trips whose day label is [label]. *)
Definition created_on (h : Host) (label : string) (trips : list Document)
  : list Document :=
  List.filter (fun t => String.eqb (trip_day h t) label) trips.

(** A store whose listings reject. *)
Definition failing_store (c : Collection) (queries : list Query)
  : option DocumentList := None.

(** A text that does not start with a decimal digit. *)
Definition no_leading_digit (s : string) : bool :=
  match s with
  | EmptyString => true
  | String c _ => negb (bool_decide (is_Some (digit_value c)))
  end.


(** What a submission that passed the checks does after its request. *)
Definition after_request (h : Host) (f : TripFormData) (user : Account)
  : list Event :=
  match fetch h (CreateTripApi f (account_id user)) with
  | HttpResponse _ (Some result) =>
      if truthy (opt_member (Some result) "id")
      then [ev_navigate "/trips/" (or_null (opt_member (Some result) "id"))]
      else [console_error "failed to generate a trip"]
  | _ => [console_error "Error creating trip:"]
  end.

(** The form passes the two checks of [handleSubmit]. *)
Definition passes_checks (f : TripFormData) : bool :=
  fields_filled f
  && negb (lt (duration f) (of_Z 1) || gt (duration f) (of_Z 10)).

(** A network on which the create-trip endpoint answers with its failure. *)
Definition api_fails (r : Request) : FetchResult :=
  HttpResponse true (Some (JObject [("error", JString "Failed to create trip")])).

(** * Properties *)

(** ** Trend percentage *)

Section TrendFacts.

Local Open Scope Z_scope.

Lemma strict_eq_of_Z (a b : Z) :
  strict_eq (of_Z a) (of_Z b) = bool_decide (a = b).
Proof.
  unfold strict_eq, of_Z. apply bool_decide_ext. apply Z2Qc_inj_iff.
Qed.

Lemma sub_of_Z (a b : Z) : sub (of_Z a) (of_Z b) = of_Z (a - b).
Proof.
  unfold sub, of_Z; simpl. f_equal.
  rewrite Z2Qc_inj_sub. reflexivity.
Qed.

Lemma lt_of_Z (a b : Z) : lt (of_Z a) (of_Z b) = bool_decide (a < b).
Proof.
  unfold lt, of_Z. apply bool_decide_ext. symmetry. apply Z2Qc_inj_lt.
Qed.


End TrendFacts.


(** The three sample points of the specification, evaluated. *)
Lemma calculateTrendPercentage_samples :
  calculateTrendPercentage (of_Z 0) (of_Z 0) = mkTrend no_change (of_Z 0) /\
  calculateTrendPercentage (of_Z 5) (of_Z 0) = mkTrend increment (of_Z 100) /\
  calculateTrendPercentage (of_Z 8) (of_Z 10) = mkTrend decrement (of_Z 20).
Proof.
  unfold calculateTrendPercentage, zero, gt.
  rewrite !strict_eq_of_Z, sub_of_Z, !lt_of_Z. simpl.
  repeat split.
  unfold of_Z. do 2 f_equal. apply Qc_is_canon. reflexivity.
Qed.


(** ** The fenced-block pattern *)

Section FencedBlock.

#[local] Arguments String.append !s1 s2 : simpl nomatch.

Lemma strip_prefix_Some (p s r : string) :
  strip_prefix p s = Some r <-> s = p +:+ r.
Proof.
  revert s. induction p as [|a p IH]; intros s; simpl.
  - split; congruence.
  - destruct s as [|b s]; [split; discriminate|].
    destruct (Ascii.eqb_spec a b) as [->|Hne].
    + rewrite IH. split; congruence.
    + split; [discriminate | congruence].
Qed.

Lemma append_inv_head (p a b : string) : p +:+ a = p +:+ b -> a = b.
Proof. induction p; simpl; intros H; [assumption | injection H; auto]. Qed.

Lemma append_inv_length (p1 r1 p2 r2 : string) :
  p1 +:+ r1 = p2 +:+ r2 -> String.length p1 = String.length p2 ->
  p1 = p2 /\ r1 = r2.
Proof.
  revert p2. induction p1 as [|c p1 IH]; intros [|d p2]; simpl;
    intros H Hlen; try discriminate.
  - split; [reflexivity | assumption].
  - injection H as -> H. injection Hlen as Hlen.
    destruct (IH _ H Hlen) as [-> ->]. split; reflexivity.
Qed.

Lemma match_at_empty : match_at "" = None.
Proof. reflexivity. Qed.

#[local] Opaque fence_open fence_close.

Lemma lazy_body_Some (s b : string) :
  lazy_body s = Some b ->
  b <> "" /\ exists post, s = b +:+ fence_close +:+ post.
Proof.
  revert b. induction s as [|c rest IH]; intros b; simpl; [discriminate|].
  destruct (strip_prefix fence_close rest) as [post|] eqn:Hclose.
  - intros [= <-]. split; [discriminate|].
    exists post. apply strip_prefix_Some in Hclose. simpl. congruence.
  - destruct (lazy_body rest) as [b0|]; simpl; [|discriminate].
    intros [= <-]. destruct (IH b0 eq_refl) as [_ [post ->]].
    split; [discriminate|]. exists post. reflexivity.
Qed.

Lemma lazy_body_least (s b : string) :
  lazy_body s = Some b ->
  forall b' post', b' <> "" -> s = b' +:+ fence_close +:+ post' ->
  String.length b <= String.length b'.
Proof.
  revert b. induction s as [|c rest IH]; intros b; simpl; [discriminate|].
  destruct (strip_prefix fence_close rest) as [post|] eqn:Hclose.
  - intros [= <-] [|c' b''] post' Hne _; [congruence | simpl; lia].
  - destruct (lazy_body rest) as [b0|]; simpl; [|discriminate].
    intros [= <-] [|c' b''] post' Hne Hs; [congruence|].
    simpl in Hs. injection Hs as _ Hrest.
    destruct b'' as [|c'' b''].
    + simpl in Hrest. apply strip_prefix_Some in Hrest. congruence.
    + simpl. apply le_n_S.
      apply (IH b0 eq_refl (String c'' b'') post'); [discriminate|].
      exact Hrest.
Qed.

Lemma lazy_body_None (s : string) :
  lazy_body s = None ->
  forall b post, b <> "" -> s <> b +:+ fence_close +:+ post.
Proof.
  induction s as [|c rest IH]; simpl.
  - intros _ [|c' b'] post Hne; [congruence | discriminate].
  - destruct (strip_prefix fence_close rest) as [post0|] eqn:Hclose;
      [discriminate|].
    destruct (lazy_body rest) as [b0|]; simpl; [discriminate|].
    intros _ [|c' b'] post Hne Hs; [congruence|].
    simpl in Hs. injection Hs as _ Hrest.
    destruct b' as [|c'' b'].
    + simpl in Hrest. apply strip_prefix_Some in Hrest. congruence.
    + apply (IH eq_refl (String c'' b') post); [discriminate | exact Hrest].
Qed.

(** The pattern matches at the start of [s] exactly when a block opens
    there. *)
Lemma match_at_fenced (s body post : string) :
  fenced s "" body post -> match_at s <> None.
Proof.
  intros [Hne Hs]. simpl in Hs. unfold match_at.
  apply strip_prefix_Some in Hs. rewrite Hs. simpl.
  intros Hnone. exact (lazy_body_None _ Hnone body post Hne eq_refl).
Qed.

Lemma regex_match_Some (s b : string) :
  regex_match s = Some b -> first_fenced_block s b.
Proof.
  revert b. induction s as [|c rest IH]; intros b.
  - simpl regex_match. rewrite match_at_empty. discriminate.
  - simpl regex_match. destruct (match_at (String c rest)) as [b0|] eqn:Hat.
    + intros [= <-]. unfold match_at in Hat.
      destruct (strip_prefix fence_open (String c rest)) as [r|] eqn:Hopen;
        simpl in Hat; [|discriminate].
      apply strip_prefix_Some in Hopen.
      destruct (lazy_body_Some _ _ Hat) as [Hne [post Hr]].
      exists "", post. split.
      * split; [exact Hne|]. simpl. rewrite Hopen, Hr. reflexivity.
      * intros pre' body' post' [Hne' Hs'].
        destruct pre' as [|c' pre']; [right | left; simpl; lia].
        split; [reflexivity|]. simpl in Hs'. rewrite Hopen in Hs'.
        apply append_inv_head in Hs'.
        exact (lazy_body_least _ _ Hat body' post' Hne' Hs').
    + intros Hrest. destruct (IH b Hrest) as (pre & post & [Hne Hs] & Hmin).
      exists (String c pre), post. split.
      * split; [exact Hne|]. simpl. rewrite Hs. reflexivity.
      * intros pre' body' post' Hf'.
        destruct pre' as [|c' pre'].
        -- exfalso. exact (match_at_fenced _ _ _ Hf' Hat).
        -- destruct Hf' as [Hne' Hs']. simpl in Hs'. injection Hs' as _ Hs'.
           destruct (Hmin pre' body' post' (conj Hne' Hs')) as [Hlt|[He Hle]];
             simpl; [left; lia | right; split; [lia | exact Hle]].
Qed.

Lemma regex_match_None (s : string) :
  regex_match s = None -> forall pre body post, ~ fenced s pre body post.
Proof.
  induction s as [|c rest IH].
  - intros _ [|c pre] body post Hf; [|destruct Hf as [_ Hs]; discriminate Hs].
    exact (match_at_fenced _ _ _ Hf match_at_empty).
  - simpl regex_match. destruct (match_at (String c rest)) eqn:Hat;
      [discriminate|].
    intros Hrest [|c' pre] body post Hf.
    + exact (match_at_fenced _ _ _ Hf Hat).
    + destruct Hf as [Hne Hs]. simpl in Hs. injection Hs as _ Hs.
      exact (IH Hrest pre body post (conj Hne Hs)).
Qed.

Lemma first_fenced_block_unique (s b1 b2 : string) :
  first_fenced_block s b1 -> first_fenced_block s b2 -> b1 = b2.
Proof.
  intros (pre1 & post1 & F1 & Min1) (pre2 & post2 & F2 & Min2).
  assert (Hlen : String.length pre1 = String.length pre2 /\
                 String.length b1 = String.length b2).
  { destruct (Min1 _ _ _ F2) as [?|[? ?]], (Min2 _ _ _ F1) as [?|[? ?]]; lia. }
  destruct Hlen as [Hpre Hb], F1 as [_ E1], F2 as [_ E2].
  rewrite E1 in E2.
  apply append_inv_length in E2 as [_ E2]; [|exact Hpre].
  apply append_inv_head in E2.
  apply append_inv_length in E2 as [E2 _]; [exact E2 | exact Hb].
Qed.

(** [match[1]] is the content of the first fenced block, and there is no
    match exactly when there is no fenced block. *)
Lemma regex_match_first (s body : string) :
  first_fenced_block s body -> regex_match s = Some body.
Proof.
  intros Hfirst. destruct (regex_match s) as [b|] eqn:Hm.
  - f_equal. exact (first_fenced_block_unique _ _ _ (regex_match_Some _ _ Hm) Hfirst).
  - destruct Hfirst as (pre & post & F & _).
    exfalso. exact (regex_match_None _ Hm _ _ _ F).
Qed.

Lemma regex_match_absent (s : string) :
  (forall pre body post, ~ fenced s pre body post) -> regex_match s = None.
Proof.
  intros Hnone. destruct (regex_match s) as [b|] eqn:Hm; [|reflexivity].
  destruct (regex_match_Some _ _ Hm) as (pre & post & F & _).
  exfalso. exact (Hnone _ _ _ F).
Qed.

End FencedBlock.

(** ** parseMarkdownToJson *)

(** Unfolding the effect combinators. *)
Ltac run_M :=
  unfold run, try_catch, call, emit, ask, throw, mbind, M_bind, bind,
    mret, M_ret, ret; simpl.

(** Equal values whose rationals carry different canonicity proofs. *)
Ltac qc_eq :=
  repeat match goal with
         | |- @eq Qc _ _ => apply Qc_is_canon; reflexivity
         | |- _ => progress f_equal
         end.

(** C3.  [parseMarkdownToJson] returns what [JSON.parse] makes of the content
    of the first fenced block when there is one and its content is valid
    JSON; it logs an error and returns null when the content is not valid
    JSON, and when the text holds no fenced block. *)
Theorem parseMarkdownToJson_spec (h : Host) (markdownText : string) :
  (forall body v,
      first_fenced_block markdownText body -> JSON_parse h body = Some v ->
      run (parseMarkdownToJson markdownText) h = (Returned v, [])) /\
  (forall body,
      first_fenced_block markdownText body -> JSON_parse h body = None ->
      run (parseMarkdownToJson markdownText) h
      = (Returned JNull, [console_error "Error parsing JSON:"])) /\
  ((forall pre body post, ~ fenced markdownText pre body post) ->
      run (parseMarkdownToJson markdownText) h
      = (Returned JNull, [console_error "No valid JSON found in markdown text."])).
Proof.
  assert (Hgroup : forall body, first_fenced_block markdownText body ->
            regex_match markdownText = Some body /\ String.eqb body "" = false).
  { intros body Hfirst. split; [exact (regex_match_first _ _ Hfirst)|].
    destruct Hfirst as (pre & post & [Hne _] & _).
    apply String.eqb_neq. exact Hne. }
  split; [|split].
  - intros body v Hfirst Hparse. destruct (Hgroup body Hfirst) as [Hm Hnonempty].
    unfold parseMarkdownToJson. rewrite Hm, Hnonempty. run_M.
    rewrite Hparse. reflexivity.
  - intros body Hfirst Hparse. destruct (Hgroup body Hfirst) as [Hm Hnonempty].
    unfold parseMarkdownToJson. rewrite Hm, Hnonempty. run_M.
    rewrite Hparse. reflexivity.
  - intros Hnone. unfold parseMarkdownToJson.
    rewrite (regex_match_absent _ Hnone). reflexivity.
Qed.

Lemma parseMarkdownToJson_spec_witness :
  let h := ref_host None empty_store accepting_store (fun _ => None)
             (fun _ => NetworkError) in
  let body := "{" +:+ RefJSON.quote "itinerary" +:+ ": [{"
              +:+ RefJSON.quote "day" +:+ ": 1}]}" in
  let v := JObject [("itinerary", JArray [JObject [("day", JNumber (of_Z 1))]])] in
  first_fenced_block fenced_reply body /\
  JSON_parse h body = Some v /\
  run (parseMarkdownToJson fenced_reply) h = (Returned v, []).
Proof.
  intros h body v.
  assert (Hfirst : first_fenced_block fenced_reply body)
    by (apply regex_match_Some; vm_compute; reflexivity).
  assert (Hparse : JSON_parse h body = Some v).
  { vm_compute. qc_eq. }
  split; [exact Hfirst | split; [exact Hparse|]].
  exact (proj1 (parseMarkdownToJson_spec h fenced_reply) body v Hfirst Hparse).
Defined.

(** ** create-trip *)

Section ActionFacts.

Variable h : Host.

Lemma action_unfold (body : Json) :
  body <> JNull ->
  action (Some body)
  = try_catch
      (action_try (prompt_of body) (photo_search_of body) (prop body "userId"))
      action_catch.
Proof. destruct body; [congruence | reflexivity ..]. Qed.

(** A request whose body cannot be read, or is [null], fails before the
    [try]: the action rejects and nothing is logged. *)
Lemma action_unreadable :
  run (action None) h = (Threw SyntaxError, []) /\
  run (action (Some JNull)) h = (Threw TypeError, []).
Proof. split; reflexivity. Qed.

(** [parseMarkdownToJson] never throws; it only adds console output. *)
Lemma parseMarkdownToJson_returns (s : string) :
  exists v log,
    (forall tr, parseMarkdownToJson s h tr = (Returned v, tr ++ log)) /\
    Forall no_write log.
Proof.
  unfold parseMarkdownToJson.
  destruct (regex_match s) as [group1|].
  - destruct (negb (String.eqb group1 "")).
    + run_M. destruct (JSON_parse h group1) as [v|].
      * exists v, []. split; [intros tr; rewrite app_nil_r; reflexivity | constructor].
      * eexists JNull, [_]. split; [reflexivity | repeat constructor].
    + eexists JNull, [_]. split; [reflexivity | repeat constructor].
  - eexists JNull, [_]. split; [reflexivity | repeat constructor].
Qed.

Lemma parseMarkdownToJson_unfenced (s : string) (tr : list Event) :
  regex_match s = None ->
  parseMarkdownToJson s h tr
  = (Returned JNull, tr ++ [console_error "No valid JSON found in markdown text."]).
Proof. intros Hm. unfold parseMarkdownToJson. rewrite Hm. reflexivity. Qed.

Lemma created_app (c : Collection) (tr1 tr2 : list Event) :
  created c (tr1 ++ tr2) = created c tr1 ++ created c tr2.
Proof. unfold created. apply omap_app. Qed.

Lemma created_console (c : Collection) (log : list Event) :
  Forall no_write log -> created c log = [].
Proof.
  induction 1 as [|e log He _ IH]; [reflexivity|].
  destruct e; try exact IH. destruct He.
Qed.

(** The URL list is computed without effects. *)
Lemma mapM_cons {A B : Type} (f : A -> M B) (x : A) (l : list A)
    (tr : list Event) :
  mapM f (x :: l) h tr
  = match f x h tr with
    | (Returned y, tr') =>
        match mapM f l h tr' with
        | (Returned ys, tr'') => (Returned (y :: ys), tr'')
        | (Threw e, tr'') => (Threw e, tr'')
        end
    | (Threw e, tr') => (Threw e, tr')
    end.
Proof. reflexivity. Qed.

Lemma mapM_pure {A B : Type} (f : A -> M B) :
  (forall x tr, snd (f x h tr) = tr) ->
  forall l tr, snd (mapM f l h tr) = tr.
Proof.
  intros Hf l. induction l as [|x l IH]; intros tr; [reflexivity|].
  rewrite mapM_cons. specialize (Hf x tr).
  destruct (f x h tr) as [[y|e] tr']; simpl in Hf; subst tr'; [|reflexivity].
  specialize (IH tr).
  destruct (mapM f l h tr) as [[ys|e] tr']; simpl in IH; subst tr'; reflexivity.
Qed.

Lemma regular_url_pure (result : Json) (tr : list Event) :
  snd (regular_url result h tr) = tr.
Proof. destruct result; reflexivity. Qed.

Lemma image_urls_pure (photos : Json) (tr : list Event) :
  snd (image_urls photos h tr) = tr.
Proof.
  unfold image_urls, member.
  destruct photos as [| | | | |fields]; run_M; try reflexivity.
  destruct (assoc "results" fields) as [[| | | |items|]|]; try reflexivity.
  apply mapM_pure. apply regular_url_pure.
Qed.

Lemma image_urls_none (photos : Json) (tr : list Event) :
  prop photos "results" = Some (JArray []) ->
  image_urls photos h tr = (Returned [], tr).
Proof.
  intros Hres. unfold image_urls, member.
  destruct photos; simpl in Hres; try discriminate; run_M.
  rewrite Hres. reflexivity.
Qed.

Lemma image_urls_no_results (photos : Json) (tr : list Event) :
  (forall items, prop photos "results" <> Some (JArray items)) ->
  image_urls photos h tr = (Threw TypeError, tr).
Proof.
  intros Hres. unfold image_urls, member.
  destruct photos as [| | | | |fields]; run_M; try reflexivity.
  simpl in Hres.
  destruct (assoc "results" fields) as [[| | | |items|]|]; try reflexivity.
  exfalso. exact (Hres items eq_refl).
Qed.


#[local] Opaque parseMarkdownToJson image_urls.

(** The writes of a trace whose unknown part [log] is console output. *)
Ltac created_trace Hlog :=
  unfold created; simpl; rewrite ?omap_app; simpl;
  match type of Hlog with
  | Forall _ ?log =>
      change (omap _ log) with (created tripCollection log);
      rewrite (created_console tripCollection log Hlog)
  end;
  reflexivity.

Ltac run_action :=
  unfold run, try_catch, action_try, action_catch, do_fetch, response_json,
    database_createDocument;
  run_M.

Lemma action_image_failure (body : Json) (reply : string) :
  body <> JNull ->
  generateContent h (prompt_of body) = Some reply ->
  fetch h (photo_search_of body) = NetworkError \/
  (exists ok, fetch h (photo_search_of body) = HttpResponse ok None) \/
  (exists ok photos,
      fetch h (photo_search_of body) = HttpResponse ok (Some photos) /\
      forall items, prop photos "results" <> Some (JArray items)) ->
  fst (run (action (Some body)) h) = Returned (resp_error "Failed to create trip") /\
  created tripCollection (snd (run (action (Some body)) h)) = [].
Proof.
  intros Hbody Hgen Hfail. rewrite (action_unfold body Hbody).
  destruct (parseMarkdownToJson_returns reply) as (v & log & Hparse & Hlog).
  run_action. rewrite Hgen, Hparse.
  destruct Hfail as [Hf | [[ok Hf] | (ok & photos & Hf & Hres)]]; rewrite Hf; simpl.
  3: rewrite (image_urls_no_results photos _ Hres).
  all: split; [reflexivity|].
  all: created_trace Hlog.
Qed.

Lemma action_no_images (body : Json) (reply : string) (ok : bool) (photos : Json) :
  body <> JNull ->
  generateContent h (prompt_of body) = Some reply ->
  fetch h (photo_search_of body) = HttpResponse ok (Some photos) ->
  prop photos "results" = Some (JArray []) ->
  exists trip log,
    run (parseMarkdownToJson reply) h = (Returned trip, log) /\
    let d := trip_data (JSON_stringify h trip) (now_toISOString h) []
               (prop body "userId") in
    created tripCollection (snd (run (action (Some body)) h)) = [d] /\
    fst (run (action (Some body)) h)
    = match createDocument h tripCollection d with
      | Some doc => Returned (resp_id (doc !! "$id"))
      | None => Returned (resp_error "Failed to create trip")
      end.
Proof.
  intros Hbody Hgen Hf Hres. rewrite (action_unfold body Hbody).
  destruct (parseMarkdownToJson_returns reply) as (v & log & Hparse & Hlog).
  exists v, log. split; [exact (Hparse [])|].
  run_action. rewrite Hgen, Hparse, Hf. simpl.
  rewrite (image_urls_none photos _ Hres).
  destruct (createDocument h tripCollection _) as [doc|]; simpl.
  all: split; [|reflexivity].
  all: created_trace Hlog.
Qed.

(** Every trip document the action asks for holds the serialisation of
    what parseMarkdownToJson made of the model's reply. *)
Lemma action_created (body : Json) (d : Document) :
  body <> JNull ->
  d ∈ created tripCollection (snd (run (action (Some body)) h)) ->
  exists reply trip log urls,
    generateContent h (prompt_of body) = Some reply /\
    run (parseMarkdownToJson reply) h = (Returned trip, log) /\
    d = trip_data (JSON_stringify h trip) (now_toISOString h) urls
          (prop body "userId").
Proof.
  intros Hbody. rewrite (action_unfold body Hbody).
  run_action.
  destruct (generateContent h (prompt_of body)) as [reply|]; simpl;
    [|intros Hin; inversion Hin].
  destruct (parseMarkdownToJson_returns reply) as (trip & log & Hparse & Hlog).
  rewrite Hparse.
  destruct (fetch h (photo_search_of body)) as [|ok [photos|]]; simpl.
  1, 3: unfold created; simpl; rewrite ?omap_app; simpl;
    change (omap _ log) with (created tripCollection log);
    rewrite (created_console tripCollection log Hlog);
    intros Hin; inversion Hin.
  match goal with
  | |- context [image_urls photos h ?tr] =>
      pose proof (image_urls_pure photos tr) as Hpure;
      destruct (image_urls photos h tr) as [[urls|e] tr'];
      simpl in Hpure; subst tr'
  end.
  - intros Hin.
    exists reply, trip, log, urls.
    split; [reflexivity | split; [exact (Hparse [])|]].
    destruct (createDocument h tripCollection _); simpl in Hin;
      unfold created in Hin; simpl in Hin; rewrite ?omap_app in Hin;
      simpl in Hin;
      change (omap _ log) with (created tripCollection log) in Hin;
      rewrite (created_console tripCollection log Hlog) in Hin;
      simpl in Hin; apply list_elem_of_singleton in Hin; exact Hin.
  - unfold created; simpl; rewrite ?omap_app; simpl;
    change (omap _ log) with (created tripCollection log);
    rewrite (created_console tripCollection log Hlog);
    intros Hin; inversion Hin.
Qed.

End ActionFacts.

(** C2.  A reply that holds the itinerary as bare JSON, as the prompt asks,
    has no fenced block; extraction yields null; the action nevertheless
    stores a trip whose detail is the text [null] and answers with its id. *)
Theorem action_unfenced_reply_succeeds :
  let h := ref_host (Some sample_account) empty_store accepting_store
             (fun _ => Some bare_reply) no_photos in
  (forall pre body post, ~ fenced bare_reply pre body post) /\
  run (parseMarkdownToJson bare_reply) h
  = (Returned JNull, [console_error "No valid JSON found in markdown text."]) /\
  run (action (Some sample_request)) h
  = (Returned (resp_id (Some (JString "68b21eb500253ed84e76"))),
     [ev_generateContent (prompt_of sample_request);
      console_error "No valid JSON found in markdown text.";
      ev_fetch (photo_search_of sample_request);
      ev_createDocument tripCollection
        (trip_data "null" "2025-08-30T09:15:00.000Z" []
           (Some (JString "66f0a1c2000d3b7e9a11")))]).
Proof.
  intros h. split; [|split].
  - apply regex_match_None. vm_compute. reflexivity.
  - vm_compute. reflexivity.
  - vm_compute. reflexivity.
Qed.

(** For every host: when the reply has no fenced block, the photo search
    answers and the store accepts, the response is the id of a document whose
    detail is the serialisation of null. *)
Lemma action_unfenced_reply (h : Host) (body : Json) (reply : string)
    (ok : bool) (photos : Json) (doc : Document) :
  body <> JNull ->
  generateContent h (prompt_of body) = Some reply ->
  (forall pre block post, ~ fenced reply pre block post) ->
  fetch h (photo_search_of body) = HttpResponse ok (Some photos) ->
  prop photos "results" = Some (JArray []) ->
  let d := trip_data (JSON_stringify h JNull) (now_toISOString h) []
             (prop body "userId") in
  createDocument h tripCollection d = Some doc ->
  fst (run (action (Some body)) h) = Returned (resp_id (doc !! "$id")) /\
  created tripCollection (snd (run (action (Some body)) h)) = [d].
Proof.
  intros Hbody Hgen Hnone Hf Hres d Hstore.
  destruct (action_no_images h body reply ok photos Hbody Hgen Hf Hres)
    as (trip & log & Hparse & Hcreated & Hresp).
  unfold run in Hparse.
  rewrite (parseMarkdownToJson_unfenced h reply [] (regex_match_absent _ Hnone))
    in Hparse.
  injection Hparse as <- _. fold d in Hcreated, Hresp.
  rewrite Hstore in Hresp. split; assumption.
Qed.

(** The response of the action is [{id}] or [{error}] whenever the body of
    the request is JSON other than [null]. *)
Lemma action_responds (h : Host) (body : Json) :
  body <> JNull ->
  exists response, fst (run (action (Some body)) h) = Returned response.
Proof.
  intros Hbody. rewrite (action_unfold body Hbody).
  unfold run, try_catch.
  destruct (action_try _ _ _ h []) as [[response|e] tr]; simpl.
  - exists response. reflexivity.
  - eexists. reflexivity.
Qed.

(** C4, as the specification states it, fails: with the photo search
    unreachable the action writes nothing, although the model returned an
    itinerary and the store accepts every document. *)
Lemma not_persisted_despite_image_failure : ~ persisted_despite_image_failure.
Proof.
  intros Hclaim.
  destruct (Hclaim
              (ref_host (Some sample_account) empty_store accepting_store
                 (fun _ => Some fenced_reply) offline)
              sample_request fenced_reply)
    as (d & Hcreated & _); [discriminate | reflexivity | reflexivity |].
  vm_compute in Hcreated. discriminate Hcreated.
Qed.

(** C4, amended.  When the photo search rejects, or its body is not JSON or
    has no [results] array, the action answers [{error}] and asks the store
    for nothing; when the search answers with an empty [results] array, the
    itinerary is written with an empty image list, and the action answers
    with the id of the stored document if the store accepts it. *)
Theorem action_image_enrichment (h : Host) (body : Json) (reply : string) :
  body <> JNull ->
  generateContent h (prompt_of body) = Some reply ->
  let r := run (action (Some body)) h in
  (fetch h (photo_search_of body) = NetworkError \/
   (exists ok, fetch h (photo_search_of body) = HttpResponse ok None) \/
   (exists ok photos,
       fetch h (photo_search_of body) = HttpResponse ok (Some photos) /\
       forall items, prop photos "results" <> Some (JArray items)) ->
   fst r = Returned (resp_error "Failed to create trip") /\
   created tripCollection (snd r) = []) /\
  (forall ok photos,
      fetch h (photo_search_of body) = HttpResponse ok (Some photos) ->
      prop photos "results" = Some (JArray []) ->
      exists trip log,
        run (parseMarkdownToJson reply) h = (Returned trip, log) /\
        let d := trip_data (JSON_stringify h trip) (now_toISOString h) []
                   (prop body "userId") in
        created tripCollection (snd r) = [d] /\
        d !! "imageUrls" = Some (JArray []) /\
        fst r = match createDocument h tripCollection d with
                | Some doc => Returned (resp_id (doc !! "$id"))
                | None => Returned (resp_error "Failed to create trip")
                end).
Proof.
  intros Hbody Hgen r. split.
  - exact (action_image_failure h body reply Hbody Hgen).
  - intros ok photos Hf Hres.
    destruct (action_no_images h body reply ok photos Hbody Hgen Hf Hres)
      as (trip & log & Hparse & Hcreated & Hresp).
    exists trip, log. split; [exact Hparse|]. split; [exact Hcreated|].
    split; [|exact Hresp].
    unfold trip_data. destruct (prop body "userId"); reflexivity.
Qed.

Lemma action_image_enrichment_witness :
  let h := ref_host (Some sample_account) empty_store accepting_store
             (fun _ => Some fenced_reply) no_photos in
  sample_request <> JNull /\
  generateContent h (prompt_of sample_request) = Some fenced_reply /\
  exists trip log,
    run (parseMarkdownToJson fenced_reply) h = (Returned trip, log) /\
    let d := trip_data (JSON_stringify h trip) (now_toISOString h) []
               (prop sample_request "userId") in
    created tripCollection (snd (run (action (Some sample_request)) h)) = [d] /\
    d !! "imageUrls" = Some (JArray []) /\
    fst (run (action (Some sample_request)) h)
    = match createDocument h tripCollection d with
      | Some doc => Returned (resp_id (doc !! "$id"))
      | None => Returned (resp_error "Failed to create trip")
      end.
Proof.
  intros h.
  assert (Hbody : sample_request <> JNull) by discriminate.
  assert (Hgen : generateContent h (prompt_of sample_request) = Some fenced_reply)
    by reflexivity.
  split; [exact Hbody | split; [exact Hgen|]].
  exact (proj2 (action_image_enrichment h sample_request fenced_reply Hbody Hgen)
           true (JObject [("total", JNumber (of_Z 0)); ("results", JArray [])])
           eq_refl eq_refl).
Defined.

(** ** Profiles and the admin guard *)

Section AuthFacts.

Variable h : Host.

(** Looking up a profile photo never throws and writes nothing. *)
Lemma getGooglePicture_returns (accessToken : string) :
  exists pic log,
    (forall tr, getGooglePicture accessToken h tr = (Returned pic, tr ++ log)) /\
    Forall no_write log.
Proof.
  unfold getGooglePicture, do_fetch, response_json, member. run_M.
  destruct (fetch h (GooglePeople accessToken)) as [|[|] [[| | | | |]|]]; simpl;
    eexists _, _;
    (split; [intros tr; rewrite <- ?app_assoc; simpl; reflexivity
            | repeat constructor]).
Qed.

Lemma profile_data_status (user : Account) (pic : Json) (joinedAt : string) :
  profile_data user pic joinedAt !! "status" = None.
Proof. unfold profile_data. rewrite !lookup_insert_ne by done. done. Qed.

(** storeUserData never throws; what it asks the store to create. *)
Lemma storeUserData_run :
  exists log,
    (forall tr, storeUserData h tr = (Returned tt, tr ++ log)) /\
    match account_get h, account_getSession h with
    | Some user, Some _ =>
        exists pic,
          created userCollection log
          = [profile_data user pic (now_toISOString h)]
    | _, _ => created userCollection log = []
    end.
Proof.
  unfold storeUserData, database_createDocument. run_M.
  destruct (account_get h) as [user|]; simpl; [|eexists [_]; split; reflexivity].
  destruct (account_getSession h) as [token|]; simpl;
    [|eexists [_]; split; reflexivity].
  assert (Hpic : exists pic log,
             (forall tr,
                 match token with
                 | Some t => if String.eqb t "" then mret JNull
                             else getGooglePicture t
                 | None => mret JNull
                 end h tr = (Returned pic, tr ++ log)) /\
             Forall no_write log).
  { destruct token as [t|].
    - destruct (String.eqb t "").
      + exists JNull, []. split; [intros tr; rewrite app_nil_r; reflexivity
                                 | constructor].
      + apply getGooglePicture_returns.
    - exists JNull, []. split; [intros tr; rewrite app_nil_r; reflexivity
                               | constructor]. }
  destruct Hpic as (pic & log & Hpic & Hlog).
  destruct (createDocument h userCollection
              (profile_data user pic (now_toISOString h))) as [doc|] eqn:Hstore.
  - exists (log ++ [ev_createDocument userCollection
                      (profile_data user pic (now_toISOString h))]).
    split.
    + intros tr. rewrite Hpic. simpl. rewrite Hstore, app_assoc. reflexivity.
    + exists pic. rewrite created_app, (created_console _ _ Hlog). reflexivity.
  - exists (log ++ [ev_createDocument userCollection
                      (profile_data user pic (now_toISOString h));
                    console_error "Error storing user data:"]).
    split.
    + intros tr. rewrite Hpic. simpl. rewrite Hstore. simpl.
      rewrite <- !app_assoc. reflexivity.
    + exists pic. rewrite created_app, (created_console _ _ Hlog). reflexivity.
Qed.

Lemma getExistingUser_found (id : string) (r : DocumentList) (tr : list Event) :
  listDocuments h userCollection [Query_equal "accountId" id] = Some r ->
  getExistingUser id h tr
  = (Returned (if bool_decide (total r > 0)%Z then head (documents r) else None),
     tr ++ [ev_listDocuments userCollection [Query_equal "accountId" id]]).
Proof.
  intros Hlist. unfold getExistingUser, database_listDocuments. run_M.
  rewrite Hlist. reflexivity.
Qed.

End AuthFacts.

(** C6.  The guard of the admin routes: without a session (the account call
    rejects, or answers without an id) it redirects to sign-in; with a
    profile whose role is the non-admin value it redirects to the root; with
    an existing profile of any other role (an admin) it returns that profile
    and asks the store for nothing but the lookup; with no profile yet it
    asks the store to create a profile for the account. *)
Theorem clientLoader_spec (h : Host) :
  (account_get h = None ->
   run clientLoader h
   = (Returned (redirect "/sign-in"), [console_log "Error in clientLoader"])) /\
  (forall user,
      account_get h = Some user -> account_id user = "" ->
      run clientLoader h = (Returned (redirect "/sign-in"), [])) /\
  (forall user r profile,
      account_get h = Some user -> account_id user <> "" ->
      listDocuments h userCollection [Query_equal "accountId" (account_id user)]
      = Some r ->
      (total r > 0)%Z -> head (documents r) = Some profile ->
      let lookup := ev_listDocuments userCollection
                      [Query_equal "accountId" (account_id user)] in
      (profile !! "status" = Some (JString "user") ->
       run clientLoader h = (Returned (redirect "/"), [lookup])) /\
      (is_string (profile !! "status") "user" = false ->
       truthy (profile !! "$id") = true ->
       run clientLoader h = (Returned (loaded (Some profile)), [lookup]))) /\
  (forall user r token,
      account_get h = Some user -> account_id user <> "" ->
      listDocuments h userCollection [Query_equal "accountId" (account_id user)]
      = Some r ->
      total r = 0%Z ->
      account_getSession h = Some token ->
      exists pic tr,
        run clientLoader h = (Returned (loaded None), tr) /\
        created userCollection tr
        = [profile_data user pic (now_toISOString h)]).
Proof.
  split; [|split; [|split]].
  - intros Hget. unfold clientLoader. run_M. rewrite Hget. reflexivity.
  - intros user Hget Hid. unfold clientLoader. run_M. rewrite Hget. simpl.
    rewrite Hid. reflexivity.
  - intros user r profile Hget Hid Hlist Htotal Hhead lookup.
    assert (Hfound : forall tr,
               getExistingUser (account_id user) h tr
               = (Returned (Some profile), tr ++ [lookup])).
    { intros tr. rewrite (getExistingUser_found h _ r tr Hlist).
      rewrite bool_decide_eq_true_2 by exact Htotal. rewrite Hhead. reflexivity. }
    apply String.eqb_neq in Hid.
    split.
    + intros Hstatus. unfold clientLoader. run_M. rewrite Hget. simpl.
      rewrite Hid, Hfound. simpl. rewrite Hstatus. reflexivity.
    + intros Hstatus Htruthy. unfold clientLoader. run_M. rewrite Hget. simpl.
      rewrite Hid, Hfound. simpl. rewrite Hstatus, Htruthy. reflexivity.
  - intros user r token Hget Hid Hlist Htotal Hsession.
    apply String.eqb_neq in Hid.
    destruct (storeUserData_run h) as (log & Hrun & Hcreated).
    rewrite Hget, Hsession in Hcreated. destruct Hcreated as [pic Hcreated].
    exists pic.
    unfold clientLoader. run_M. rewrite Hget. simpl. rewrite Hid.
    rewrite (getExistingUser_found h _ r _ Hlist).
    rewrite bool_decide_eq_false_2 by lia. simpl.
    rewrite Hrun. eexists. split; [reflexivity|].
    rewrite created_app. exact Hcreated.
Qed.

Lemma clientLoader_spec_witness :
  let lookup := ev_listDocuments userCollection
                  [Query_equal "accountId" (account_id sample_account)] in
  let host_of list_ := ref_host (Some sample_account) list_ accepting_store
                         (fun _ => None) offline in
  run clientLoader (ref_host None empty_store accepting_store (fun _ => None) offline)
  = (Returned (redirect "/sign-in"), [console_log "Error in clientLoader"]) /\
  run clientLoader (host_of (store_with (sample_profile "user")))
  = (Returned (redirect "/"), [lookup]) /\
  run clientLoader (host_of (store_with (sample_profile "admin")))
  = (Returned (loaded (Some (sample_profile "admin"))), [lookup]) /\
  exists pic tr,
    run clientLoader (host_of empty_store) = (Returned (loaded None), tr) /\
    created userCollection tr
    = [profile_data sample_account pic "2025-08-30T09:15:00.000Z"].
Proof.
  intros lookup host_of.
  split; [|split; [|split]].
  - exact (proj1 (clientLoader_spec
             (ref_host None empty_store accepting_store (fun _ => None) offline))
             eq_refl).
  - refine (proj1 (proj1 (proj2 (proj2 (clientLoader_spec
              (host_of (store_with (sample_profile "user"))))))
              sample_account {| documents := [sample_profile "user"]; total := 1 |}
              (sample_profile "user") eq_refl _ eq_refl _ eq_refl) _).
    + discriminate.
    + simpl. lia.
    + vm_compute. reflexivity.
  - refine (proj2 (proj1 (proj2 (proj2 (clientLoader_spec
              (host_of (store_with (sample_profile "admin"))))))
              sample_account {| documents := [sample_profile "admin"]; total := 1 |}
              (sample_profile "admin") eq_refl _ eq_refl _ eq_refl) _ _).
    + discriminate.
    + simpl. lia.
    + vm_compute. reflexivity.
    + vm_compute. reflexivity.
  - refine (proj2 (proj2 (proj2 (clientLoader_spec (host_of empty_store))))
              sample_account {| documents := []; total := 0 |} None
              eq_refl _ eq_refl eq_refl eq_refl).
    discriminate.
Defined.

(** ** What the application establishes on the documents it creates *)

(** C9, as the specification states it, fails for both predicates: the trip
    stored for a reply whose itinerary has no days has an empty day list, and
    the profile stored on first login has no role. *)
Lemma invariants_not_enforced :
  ~ itineraries_have_days /\ ~ profiles_have_roles.
Proof.
  split.
  - intros Hclaim.
    pose (h := ref_host (Some sample_account) empty_store accepting_store
                 (fun _ => Some empty_itinerary_reply) no_photos).
    pose (d := trip_data ("{" +:+ RefJSON.quote "itinerary" +:+ ":[]}")
                 "2025-08-30T09:15:00.000Z" []
                 (Some (JString "66f0a1c2000d3b7e9a11"))).
    assert (Hin : d ∈ created tripCollection
                    (snd (run (action (Some sample_request)) h))).
    { replace (created tripCollection _) with [d]
        by (vm_compute; reflexivity).
      apply list_elem_of_singleton. reflexivity. }
    specialize (Hclaim h (Some sample_request) d
                  (<["$id" := JString "68b21eb500253ed84e76"]> d) Hin eq_refl).
    vm_compute in Hclaim. discriminate Hclaim.
  - intros Hclaim.
    pose (h := ref_host (Some sample_account) empty_store accepting_store
                 (fun _ => None) offline).
    pose (d := profile_data sample_account JNull "2025-08-30T09:15:00.000Z").
    assert (Hin : d ∈ created userCollection (snd (run storeUserData h))).
    { replace (created userCollection _) with [d]
        by (vm_compute; reflexivity).
      apply list_elem_of_singleton. reflexivity. }
    specialize (Hclaim h d (<["$id" := JString "68b21eb500253ed84e76"]> d)
                  Hin eq_refl).
    vm_compute in Hclaim. discriminate Hclaim.
Qed.

(** C9, amended.  The application checks neither predicate.  A trip document
    holds the serialisation of what parseMarkdownToJson returned for the
    model's reply, with whatever day list the model supplied; a new profile
    holds the account id, email, name, picture and join time, and no role. *)
Theorem created_documents_unchecked (h : Host) :
  (forall request_json d,
      d ∈ created tripCollection (snd (run (action request_json) h)) ->
      exists body reply trip log urls,
        request_json = Some body /\
        generateContent h (prompt_of body) = Some reply /\
        run (parseMarkdownToJson reply) h = (Returned trip, log) /\
        d = trip_data (JSON_stringify h trip) (now_toISOString h) urls
              (prop body "userId")) /\
  (forall d,
      d ∈ created userCollection (snd (run storeUserData h)) ->
      d !! "status" = None /\
      exists user pic,
        account_get h = Some user /\
        d = profile_data user pic (now_toISOString h)).
Proof.
  split.
  - intros [body|] d Hin; [|inversion Hin].
    assert (Hcases : body = JNull \/ body <> JNull)
      by (destruct body; [left; reflexivity | right; discriminate ..]).
    destruct Hcases as [->|Hbody]; [inversion Hin|].
    destruct (action_created h body d Hbody Hin)
      as (reply & trip & log & urls & Hgen & Hparse & Hd).
    exists body, reply, trip, log, urls.
    repeat split; assumption.
  - intros d Hin.
    destruct (storeUserData_run h) as (log & Hrun & Hcreated).
    unfold run in Hin. rewrite Hrun in Hin. simpl in Hin.
    destruct (account_get h) as [user|]; [|rewrite Hcreated in Hin; inversion Hin].
    destruct (account_getSession h); [|rewrite Hcreated in Hin; inversion Hin].
    destruct Hcreated as [pic Hcreated]. rewrite Hcreated in Hin.
    apply list_elem_of_singleton in Hin. subst d.
    split; [apply profile_data_status|].
    exists user, pic. split; reflexivity.
Qed.

Lemma created_documents_unchecked_witness :
  let h := ref_host (Some sample_account) empty_store accepting_store
             (fun _ => Some empty_itinerary_reply) no_photos in
  let d := trip_data ("{" +:+ RefJSON.quote "itinerary" +:+ ":[]}")
             "2025-08-30T09:15:00.000Z" []
             (Some (JString "66f0a1c2000d3b7e9a11")) in
  d ∈ created tripCollection (snd (run (action (Some sample_request)) h)) /\
  exists body reply trip log urls,
    Some sample_request = Some body /\
    generateContent h (prompt_of body) = Some reply /\
    run (parseMarkdownToJson reply) h = (Returned trip, log) /\
    d = trip_data (JSON_stringify h trip) (now_toISOString h) urls
          (prop body "userId").
Proof.
  intros h d.
  assert (Hin : d ∈ created tripCollection
                  (snd (run (action (Some sample_request)) h))).
  { replace (created tripCollection _) with [d] by (vm_compute; reflexivity).
    apply list_elem_of_singleton. reflexivity. }
  split; [exact Hin|].
  exact (proj1 (created_documents_unchecked h) (Some sample_request) d Hin).
Defined.

(** ** Dashboard statistics *)

Section DashboardFacts.



End DashboardFacts.



(** On the sample store one user with role ['user'] joined in July and two
    trips were created in July: the figure reported for trips is 1, not 2. *)
Lemma tripsCreated_lastMonth_is_not_trips :
  let h := ref_host (Some sample_account) sample_store accepting_store
             (fun _ => None) offline in
  exists stats tr,
    run getUsersAndTripsStats h = (Returned stats, tr) /\
    lastMonth (tripsCreated stats) = 1%Z /\
    trips_created_last_month (monthBounds h)
      [sample_trip "2025-07-10T12:00:00.000Z";
       sample_trip "2025-07-20T12:00:00.000Z"]
    = 2%Z.
Proof.
  intros h. eexists _, _. split; [reflexivity|].
  split; vm_compute; reflexivity.
Qed.

(** ** User growth per day *)

Section GrowthFacts.

Local Open Scope Z_scope.

Lemma bump_acc_set (acc : list (string * Z)) (k : string) :
  bump acc k = acc_set acc k (default 0 (assoc k acc) + 1).
Proof.
  unfold bump. destruct (assoc k acc) as [n|]; [|reflexivity].
  simpl. case_bool_decide; subst; reflexivity.
Qed.

Lemma assoc_acc_set (acc : list (string * Z)) (k0 k : string) (v : Z) :
  assoc k (acc_set acc k0 v)
  = if String.eqb k0 k then Some v else assoc k acc.
Proof.
  induction acc as [|[k' v'] acc IH]; simpl; [reflexivity|].
  destruct (String.eqb_spec k' k0) as [->|Hne]; simpl.
  - destruct (String.eqb k0 k); reflexivity.
  - rewrite IH. destruct (String.eqb_spec k' k) as [->|Hne'];
      [|reflexivity].
    destruct (String.eqb_spec k0 k) as [->|_]; [congruence | reflexivity].
Qed.

Lemma assoc_None_keys {A : Type} (acc : list (string * A)) (k : string) :
  assoc k acc = None <-> k ∉ map fst acc.
Proof.
  induction acc as [|[k' v'] acc IH]; simpl.
  - split; [intros _; apply not_elem_of_nil | reflexivity].
  - rewrite not_elem_of_cons, <- IH.
    destruct (String.eqb_spec k' k) as [->|Hne]; split.
    + discriminate.
    + intros [Hk _]. congruence.
    + intros Hnone. split; [congruence | exact Hnone].
    + intros [_ Hnone]. exact Hnone.
Qed.

Lemma assoc_elem_of {A : Type} (acc : list (string * A)) (k : string) (v : A) :
  NoDup (map fst acc) -> (k, v) ∈ acc -> assoc k acc = Some v.
Proof.
  induction acc as [|[k' v'] acc IH]; simpl; intros Hnodup Hin.
  - inversion Hin.
  - apply NoDup_cons in Hnodup as [Hfresh Hnodup].
    apply elem_of_cons in Hin as [[= <- <-]|Hin].
    + rewrite String.eqb_refl. reflexivity.
    + destruct (String.eqb_spec k' k) as [->|_]; [|exact (IH Hnodup Hin)].
      exfalso. apply Hfresh.
      apply (list_elem_of_fmap_2 fst) in Hin. exact Hin.
Qed.

Lemma assoc_Some_elem_of {A : Type} (acc : list (string * A)) (k : string) (v : A) :
  assoc k acc = Some v -> (k, v) ∈ acc.
Proof.
  induction acc as [|[k' v'] acc IH]; simpl; [discriminate|].
  destruct (String.eqb_spec k' k) as [->|_].
  - intros [= ->]. apply list_elem_of_here.
  - intros Hin. apply list_elem_of_further. exact (IH Hin).
Qed.

Lemma keys_acc_set (acc : list (string * Z)) (k : string) (v : Z) :
  map fst (acc_set acc k v)
  = if assoc k acc is Some _ then map fst acc else map fst acc ++ [k].
Proof.
  induction acc as [|[k' v'] acc IH]; simpl; [reflexivity|].
  destruct (String.eqb_spec k' k) as [->|Hne]; simpl; [reflexivity|].
  rewrite IH. destruct (assoc k acc); reflexivity.
Qed.

Lemma NoDup_acc_set (acc : list (string * Z)) (k : string) (v : Z) :
  NoDup (map fst acc) -> NoDup (map fst (acc_set acc k v)).
Proof.
  intros Hnodup. rewrite keys_acc_set.
  destruct (assoc k acc) eqn:Hk; [exact Hnodup|].
  apply NoDup_app. split; [exact Hnodup|]. split.
  - intros x Hx Hxk. apply list_elem_of_singleton in Hxk. subst x.
    apply assoc_None_keys in Hk. exact (Hk Hx).
  - apply NoDup_singleton.
Qed.

Lemma sum_acc_set (acc : list (string * Z)) (k : string) (v : Z) :
  sum_values (acc_set acc k v) = sum_values acc - default 0 (assoc k acc) + v.
Proof.
  unfold sum_values.
  induction acc as [|[k' v'] acc IH]; simpl; [lia|].
  destruct (String.eqb k' k); simpl; [lia|]. rewrite IH. lia.
Qed.

Lemma positive_acc_set (acc : list (string * Z)) (k : string) (v : Z) :
  0 < v -> Forall (fun p => 0 < snd p) acc ->
  Forall (fun p => 0 < snd p) (acc_set acc k v).
Proof.
  intros Hv. induction 1 as [|[k' v'] acc Hp Hrest IH]; simpl.
  - repeat constructor. exact Hv.
  - destruct (String.eqb k' k); constructor; assumption.
Qed.

Lemma positive_assoc (acc : list (string * Z)) (k : string) :
  Forall (fun p => 0 < snd p) acc -> 0 <= default 0 (assoc k acc).
Proof.
  intros Hpos. destruct (assoc k acc) as [v|] eqn:Hk; simpl; [|lia].
  apply assoc_Some_elem_of in Hk.
  rewrite Forall_forall in Hpos. specialize (Hpos _ Hk). simpl in Hpos. lia.
Qed.

Variable h : Host.

(** The accumulator after the [reduce] has run over [users] from [acc]. *)
Lemma reduce_invariant (users : list Document) (acc : list (string * Z)) :
  NoDup (map fst acc) -> Forall (fun p => 0 < snd p) acc ->
  let acc' := fold_left (fun acc user => bump acc (user_day h user)) users acc in
  NoDup (map fst acc') /\
  Forall (fun p => 0 < snd p) acc' /\
  sum_values acc' = sum_values acc + Z.of_nat (length users) /\
  forall k, default 0 (assoc k acc')
            = default 0 (assoc k acc) + Z.of_nat (length (joined_on h k users)).
Proof.
  revert acc. induction users as [|u users IH]; intros acc Hnodup Hpos; simpl.
  - repeat split; try assumption; try (intros; simpl; lia).
  - pose proof (positive_assoc acc (user_day h u) Hpos) as Hold.
    destruct (IH (bump acc (user_day h u))) as (Hn & Hp & Hs & Hc).
    + rewrite bump_acc_set. apply NoDup_acc_set. exact Hnodup.
    + rewrite bump_acc_set. apply positive_acc_set; [lia | exact Hpos].
    + repeat split; try assumption.
      * rewrite Hs, bump_acc_set, sum_acc_set. lia.
      * intros k. rewrite Hc, bump_acc_set, assoc_acc_set.
        unfold joined_on. simpl.
        destruct (String.eqb_spec (user_day h u) k) as [<-|_]; simpl; lia.
Qed.

Lemma growth_entries_day (acc : list (string * Z)) :
  map day (growth_entries acc) = map fst acc.
Proof.
  unfold growth_entries. rewrite map_map. apply map_ext. intros [k v]. reflexivity.
Qed.

Lemma growth_entries_count (acc : list (string * Z)) :
  map count (growth_entries acc) = map snd acc.
Proof.
  unfold growth_entries. rewrite map_map. apply map_ext. intros [k v]. reflexivity.
Qed.

Lemma userGrowth_spec (users : list Document) :
  let entries := growth_entries (userGrowth h users) in
  NoDup (map day entries) /\
  Forall (fun e => 0 < count e) entries /\
  sum_counts entries = Z.of_nat (length users) /\
  (forall e, e ∈ entries ->
             count e = Z.of_nat (length (joined_on h (day e) users))) /\
  (forall u, u ∈ users -> exists e, e ∈ entries /\ day e = user_day h u).
Proof.
  intros entries. subst entries. unfold userGrowth.
  destruct (reduce_invariant users [] (NoDup_nil_2) (Forall_nil_2 _))
    as (Hn & Hp & Hs & Hc).
  set (acc := fold_left _ users []) in *.
  split; [rewrite growth_entries_day; exact Hn|].
  split.
  { unfold growth_entries. apply Forall_fmap.
    eapply Forall_impl; [exact Hp|]. intros [k v] Hv. exact Hv. }
  split.
  { unfold sum_counts. rewrite growth_entries_count. exact Hs. }
  split.
  - intros e He. unfold growth_entries in He.
    apply list_elem_of_fmap in He as ([k v] & -> & Hin). simpl.
    specialize (Hc k). rewrite (assoc_elem_of acc k v Hn Hin) in Hc.
    simpl in Hc. exact Hc.
  - intros u Hu. specialize (Hc (user_day h u)).
    assert (Hcount : 0 < Z.of_nat (length (joined_on h (user_day h u) users))).
    { unfold joined_on. clear -Hu.
      induction Hu as [u users|u u' users _ IH]; simpl.
      - rewrite String.eqb_refl. simpl. lia.
      - destruct (String.eqb (user_day h u') (user_day h u)); simpl; lia. }
    destruct (assoc (user_day h u) acc) as [v|] eqn:Hk; simpl in Hc; [|lia].
    exists {| count := v; day := user_day h u |}. split; [|reflexivity].
    unfold growth_entries. apply list_elem_of_fmap.
    exists (user_day h u, v). split; [reflexivity|].
    exact (assoc_Some_elem_of _ _ _ Hk).
Qed.

End GrowthFacts.

(** C10.  The entries of [getUserGrowthPerDay] have pairwise distinct day
    labels and strictly positive counts; the counts add up to the number of
    listed users, each count being the number of users whose [joinedAt]
    renders to that label, and every user's label has an entry. *)
Theorem getUserGrowthPerDay_spec (h : Host) (users : DocumentList) :
  listDocuments h userCollection [] = Some users ->
  exists entries,
    run getUserGrowthPerDay h
    = (Returned entries, [ev_listDocuments userCollection []]) /\
    NoDup (map day entries) /\
    Forall (fun e => 0 < count e)%Z entries /\
    sum_counts entries = Z.of_nat (length (documents users)) /\
    (forall e, e ∈ entries ->
       count e = Z.of_nat (length (joined_on h (day e) (documents users)))) /\
    (forall u, u ∈ documents users ->
       exists e, e ∈ entries /\ day e = user_day h u).
Proof.
  intros Hlist.
  exists (growth_entries (userGrowth h (documents users))). split.
  - unfold getUserGrowthPerDay, database_listDocuments. run_M.
    rewrite Hlist. reflexivity.
  - apply userGrowth_spec.
Qed.

Lemma getUserGrowthPerDay_spec_witness :
  let h := ref_host (Some sample_account) sample_store accepting_store
             (fun _ => None) offline in
  run getUserGrowthPerDay h
  = (Returned [{| count := 2; day := "Jul 4" |}; {| count := 1; day := "Aug 2" |}],
     [ev_listDocuments userCollection []]) /\
  exists entries,
    run getUserGrowthPerDay h
    = (Returned entries, [ev_listDocuments userCollection []]) /\
    NoDup (map day entries) /\
    Forall (fun e => 0 < count e)%Z entries /\
    sum_counts entries = 3%Z.
Proof.
  intros h. split; [vm_compute; reflexivity|].
  destruct (getUserGrowthPerDay_spec h
              {| documents := [sample_user "user" "2025-07-04T10:00:00.000Z";
                               sample_user "admin" "2025-07-04T11:30:00.000Z";
                               sample_user "user" "2025-08-02T08:00:00.000Z"];
                 total := 3 |} eq_refl)
    as (entries & Hrun & Hn & Hp & Hs & _).
  exists entries. repeat split; assumption.
Defined.

(** ** The trips listing *)

Section PagingFacts.

#[local] Arguments String.append !s1 s2 : simpl nomatch.

Lemma append_assoc (a b c : string) : (a +:+ b) +:+ c = a +:+ (b +:+ c).
Proof. induction a as [|x a IH]; simpl; [reflexivity | rewrite IH; reflexivity]. Qed.

Lemma pretty_N_go_append (x : N) (s : string) :
  pretty_N_go x s = pretty_N_go x "" +:+ s.
Proof.
  revert s. induction (N.lt_wf_0 x) as [x _ IH]; intros s.
  destruct (decide (x = 0)%N) as [->|Hx]; [reflexivity|].
  assert (Hlt : (x `div` 10 < x)%N) by (apply N.div_lt; lia).
  rewrite !(pretty_N_go_step x) by lia.
  rewrite (IH _ Hlt (String _ s)), (IH _ Hlt (String _ "")).
  rewrite append_assoc. reflexivity.
Qed.

Lemma digit_value_pretty (m : N) :
  (m < 10)%N -> digit_value (pretty_N_char m) = Some (Z.of_N m).
Proof.
  intros Hm.
  assert (Hcases : (m = 0 \/ m = 1 \/ m = 2 \/ m = 3 \/ m = 4 \/ m = 5 \/
                    m = 6 \/ m = 7 \/ m = 8 \/ m = 9)%N) by lia.
  repeat destruct Hcases as [->|Hcases]; try subst m; reflexivity.
Qed.

Lemma all_digits_snoc (s : string) (c : ascii) :
  all_digits s = true -> is_Some (digit_value c) ->
  all_digits (s +:+ String c "") = true.
Proof.
  intros Hs Hc. induction s as [|a s IH]; simpl in *.
  - rewrite bool_decide_eq_true_2 by exact Hc. reflexivity.
  - apply andb_true_iff in Hs as [Ha Hs].
    rewrite Ha, (IH Hs). reflexivity.
Qed.

Lemma digits_value_snoc (s : string) (c : ascii) (d : Z) (acc : option Z) :
  all_digits s = true -> digit_value c = Some d ->
  digits_value acc (s +:+ String c "")
  = Some (default 0 (digits_value acc s) * 10 + d)%Z.
Proof.
  intros Hs Hc. revert acc. induction s as [|a s IH]; intros acc; simpl in *.
  - rewrite Hc. reflexivity.
  - apply andb_true_iff in Hs as [Ha Hs].
    apply bool_decide_eq_true_1 in Ha as [da Ha]. rewrite Ha.
    apply (IH Hs).
Qed.

(** The digits [pretty] prints read back as the number. *)
Lemma pretty_N_go_digits (x : N) :
  all_digits (pretty_N_go x "") = true /\
  digits_value None (pretty_N_go x "")
  = if decide (x = 0)%N then None else Some (Z.of_N x).
Proof.
  induction (N.lt_wf_0 x) as [x _ IH].
  destruct (decide (x = 0)%N) as [->|Hx]; [split; reflexivity|].
  rewrite (pretty_N_go_step x) by lia. rewrite pretty_N_go_append.
  destruct (IH (x `div` 10)%N) as [Hall Hval]; [apply N.div_lt; lia|].
  pose proof (digit_value_pretty (x `mod` 10)%N) as Hdigit.
  specialize (Hdigit ltac:(apply N.mod_lt; lia)).
  split.
  - apply all_digits_snoc; [exact Hall | rewrite Hdigit; eauto].
  - rewrite (digits_value_snoc _ _ _ None Hall Hdigit), Hval.
    f_equal. pose proof (N.div_mod x 10 ltac:(lia)) as Hdm.
    destruct (decide (x `div` 10 = 0)%N) as [H0|_]; simpl; lia.
Qed.

Lemma parseInt10_digits (s : string) :
  all_digits s = true -> s <> "" ->
  parseInt10 s = match digits_value None s with
                 | Some v => of_Z v
                 | None => NaN
                 end.
Proof.
  intros Hall Hne. destruct s as [|c rest]; [congruence|].
  simpl in Hall. apply andb_true_iff in Hall as [Hc _].
  apply bool_decide_eq_true_1 in Hc as [d Hc].
  destruct c as [[] [] [] [] [] [] [] []]; try discriminate Hc; reflexivity.
Qed.

(** [parseInt] reads the page number back from its decimal text. *)
Lemma parseInt10_pretty (n : N) : parseInt10 (pretty n) = of_Z (Z.of_N n).
Proof.
  unfold pretty, pretty_N.
  destruct (decide (n = 0)%N) as [->|Hn]; [reflexivity|].
  destruct (pretty_N_go_digits n) as [Hall Hval].
  rewrite decide_False in Hval by exact Hn.
  rewrite parseInt10_digits, Hval; [reflexivity | exact Hall |].
  intros Hempty. rewrite Hempty in Hval. discriminate Hval.
Qed.

Lemma pretty_N_nonempty (n : N) : String.eqb (pretty n) "" = false.
Proof.
  apply String.eqb_neq. unfold pretty, pretty_N.
  destruct (decide (n = 0)%N) as [->|Hn]; [discriminate|].
  destruct (pretty_N_go_digits n) as [_ Hval].
  rewrite decide_False in Hval by exact Hn.
  intros Hempty. rewrite Hempty in Hval. discriminate Hval.
Qed.


Variable h : Host.



End PagingFacts.



(** Without a [page] parameter the loader asks for page 1. *)
Lemma loader_default_page (h : Host) :
  loader None = loader (page_param 1) /\ loader (Some "") = loader (page_param 1).
Proof. split; reflexivity. Qed.

(** ** The create-trip form *)

Section FormFacts.

Variable h : Host.

Lemma fields_filled_blank (f : TripFormData) :
  blank (country f) || blank (travelStyle f) || blank (interest f)
  || blank (budget f) || blank (groupType f)
  = negb (fields_filled f).
Proof.
  unfold fields_filled.
  destruct (blank (country f)), (blank (travelStyle f)), (blank (interest f)),
    (blank (budget f)), (blank (groupType f)); reflexivity.
Qed.

(** An empty required field blocks the submission with a message. *)
Lemma handleSubmit_missing_field (f : TripFormData) :
  fields_filled f = false ->
  run (handleSubmit f) h
  = (Returned tt,
     [ev_setLoading true; ev_setError "Please fill in all fields";
      ev_setLoading false]).
Proof.
  intros Hf. unfold handleSubmit. rewrite fields_filled_blank, Hf. reflexivity.
Qed.

(** A duration that compares below 1 or above 10 blocks the submission
    with a message. *)
Lemma handleSubmit_duration_out_of_range (f : TripFormData) :
  fields_filled f = true ->
  lt (duration f) (of_Z 1) || gt (duration f) (of_Z 10) = true ->
  run (handleSubmit f) h
  = (Returned tt,
     [ev_setLoading true;
      ev_setError "Duration must be between 1 and 10 days";
      ev_setLoading false]).
Proof.
  intros Hf Hd. unfold handleSubmit. rewrite fields_filled_blank, Hf.
  cbn [negb]. rewrite Hd. reflexivity.
Qed.

(** The request is issued only past both checks. *)
Lemma handleSubmit_request (f : TripFormData) (r : Request) :
  ev_fetch r ∈ snd (run (handleSubmit f) h) ->
  fields_filled f = true /\
  lt (duration f) (of_Z 1) = false /\ gt (duration f) (of_Z 10) = false.
Proof.
  destruct (fields_filled f) eqn:Hf.
  - destruct (lt (duration f) (of_Z 1) || gt (duration f) (of_Z 10)) eqn:Hd.
    + rewrite (handleSubmit_duration_out_of_range f Hf Hd). simpl. intros Hin.
      repeat (apply elem_of_cons in Hin as [Hin|Hin]; [discriminate Hin|]).
      inversion Hin.
    + apply orb_false_iff in Hd. intros _. split; [reflexivity | exact Hd].
  - rewrite (handleSubmit_missing_field f Hf). simpl. intros Hin.
    repeat (apply elem_of_cons in Hin as [Hin|Hin]; [discriminate Hin|]).
    inversion Hin.
Qed.

(** For a duration that is a number, passing the check means
    [1 <= duration <= 10]. *)
Lemma duration_check_finite (q : Qc) :
  lt (Finite q) (of_Z 1) = false /\ gt (Finite q) (of_Z 10) = false <->
  in_days_range (Finite q).
Proof.
  unfold lt, gt, lt, of_Z, in_days_range.
  rewrite !bool_decide_eq_false. split.
  - intros [H1 H10]. exists q. split; [reflexivity|].
    split; apply Qcnot_lt_le; assumption.
  - intros (q' & [= <-] & H1 & H10).
    split; apply Qcle_not_lt; assumption.
Qed.

(** NaN passes the check. *)
Lemma duration_check_NaN :
  lt NaN (of_Z 1) || gt NaN (of_Z 10) = false /\ ~ in_days_range NaN.
Proof.
  split; [reflexivity|]. intros (q & Hq & _). discriminate Hq.
Qed.

End FormFacts.

(** C7.  With every field filled in and a duration that is not a number,
    [handleSubmit] shows no message and posts the form to the trip-generation
    endpoint: the request is issued although [1 <= duration <= 10] fails. *)
Theorem handleSubmit_NaN_duration :
  let h := ref_host (Some sample_account) empty_store accepting_store
             (fun _ => None) api_answers in
  let f := sample_form NaN in
  fields_filled f = true /\
  ~ in_days_range (duration f) /\
  run (handleSubmit f) h
  = (Returned tt,
     [ev_setLoading true;
      ev_fetch (CreateTripApi f "66f0a1c2000d3b7e9a11");
      ev_navigate "/trips/" (JString "68b21eb500253ed84e76");
      ev_setLoading false]) /\
  ~ submission_validated.
Proof.
  intros h f.
  assert (Hrun : run (handleSubmit f) h
                 = (Returned tt,
                    [ev_setLoading true;
                     ev_fetch (CreateTripApi f "66f0a1c2000d3b7e9a11");
                     ev_navigate "/trips/" (JString "68b21eb500253ed84e76");
                     ev_setLoading false]))
    by reflexivity.
  split; [reflexivity|]. split; [exact (proj2 duration_check_NaN)|].
  split; [exact Hrun|].
  intros Hclaim.
  destruct (Hclaim h f "66f0a1c2000d3b7e9a11") as [_ Hrange].
  - rewrite Hrun. simpl. apply list_elem_of_further, list_elem_of_here.
  - exact (proj2 duration_check_NaN Hrange).
Qed.

(** For every form whose duration is a number, the request is issued only
    with every field filled in and [1 <= duration <= 10]. *)
Lemma handleSubmit_finite_duration (h : Host) (f : TripFormData) (q : Qc)
    (r : Request) :
  duration f = Finite q ->
  ev_fetch r ∈ snd (run (handleSubmit f) h) ->
  fields_filled f = true /\ in_days_range (duration f).
Proof.
  intros Hq Hin.
  destruct (handleSubmit_request h f r Hin) as (Hf & H1 & H10).
  split; [exact Hf|]. rewrite Hq in *.
  apply duration_check_finite. split; assumption.
Qed.

(** * Further properties *)

(** ** Trend percentage: bounds and missing counts *)

Section TrendBounds.

Local Open Scope Z_scope.





End TrendBounds.



(** X2.  A count that is not a number never produces a number that is not
    one: with NaN as the prior count, or as the current count against a
    non-zero prior count, the result is "no change" with 0; with NaN as the
    current count against a prior count of 0 it is an increment of 100. *)
Theorem trend_of_missing_count (n : number) :
  calculateTrendPercentage n NaN = mkTrend no_change (of_Z 0) /\
  (strict_eq n zero = false ->
   calculateTrendPercentage NaN n = mkTrend no_change (of_Z 0)) /\
  calculateTrendPercentage NaN zero = mkTrend increment (of_Z 100).
Proof.
  split; [|split].
  - destruct n as [q| |s]; reflexivity.
  - intros Hn. unfold calculateTrendPercentage. rewrite Hn.
    destruct n as [q| |s]; reflexivity.
  - unfold calculateTrendPercentage, zero. rewrite strict_eq_of_Z. reflexivity.
Qed.

Lemma trend_of_missing_count_witness :
  strict_eq (of_Z 7) zero = false /\
  calculateTrendPercentage NaN (of_Z 7) = mkTrend no_change (of_Z 0).
Proof.
  assert (H : strict_eq (of_Z 7) zero = false)
    by (unfold zero; rewrite strict_eq_of_Z; reflexivity).
  split; [exact H|].
  exact (proj1 (proj2 (trend_of_missing_count (of_Z 7))) H).
Defined.

(** ** Extraction from a reply of the expected form *)

Section FencedReply.

Lemma append_nil (s : string) : "" +:+ s = s.
Proof. reflexivity. Qed.

Lemma append_cons (c : ascii) (s t : string) :
  String c s +:+ t = String c (s +:+ t).
Proof. reflexivity. Qed.

Lemma lazy_body_cons (c : ascii) (rest : string) :
  lazy_body (String c rest)
  = match strip_prefix fence_close rest with
    | Some _ => Some (String c EmptyString)
    | None => String c <$> lazy_body rest
    end.
Proof. reflexivity. Qed.

Lemma regex_match_unfold (s : string) :
  regex_match s
  = match match_at s with
    | Some body => Some body
    | None => match s with
              | EmptyString => None
              | String _ rest => regex_match rest
              end
    end.
Proof. destruct s; reflexivity. Qed.

Lemma strip_close_cons (c : ascii) (s : string) :
  strip_prefix fence_close (String c s)
  = if Ascii.eqb "010" c then strip_prefix "```" s else None.
Proof. reflexivity. Qed.

Lemma strip_ticks_plain (c : ascii) (s : string) :
  Ascii.eqb c "`" = false -> strip_prefix "```" (String c s) = None.
Proof.
  intros Hc. apply Ascii.eqb_neq in Hc.
  destruct (strip_prefix "```" (String c s)) as [r|] eqn:Hs; [|reflexivity].
  apply strip_prefix_Some in Hs. cbv in Hs. congruence.
Qed.

Lemma strip_open_plain (c : ascii) (s : string) :
  Ascii.eqb c "`" = false -> strip_prefix fence_open (String c s) = None.
Proof.
  intros Hc. apply Ascii.eqb_neq in Hc.
  destruct (strip_prefix fence_open (String c s)) as [r|] eqn:Hs; [|reflexivity].
  apply strip_prefix_Some in Hs. cbv in Hs. congruence.
Qed.

Lemma strip_open_self (s : string) :
  strip_prefix fence_open (fence_open +:+ s) = Some s.
Proof. apply strip_prefix_Some. reflexivity. Qed.

Lemma strip_close_self (s : string) :
  strip_prefix fence_close (fence_close +:+ s) = Some s.
Proof. apply strip_prefix_Some. reflexivity. Qed.

(** No closing fence starts inside a content without backticks. *)
Lemma strip_close_content (content rest : string) :
  content <> "" -> no_backtick content = true ->
  strip_prefix fence_close (content +:+ fence_close +:+ rest) = None.
Proof.
  intros Hne Hplain. destruct content as [|c content]; [congruence|].
  simpl in Hplain. apply andb_true_iff in Hplain as [_ Hplain].
  rewrite append_cons, strip_close_cons.
  destruct (Ascii.eqb "010" c); [|reflexivity].
  destruct content as [|c' content].
  - reflexivity.
  - simpl in Hplain. apply andb_true_iff in Hplain as [Hc' _].
    apply negb_true_iff in Hc'. rewrite append_cons.
    apply strip_ticks_plain. exact Hc'.
Qed.

Lemma lazy_body_content (content rest : string) :
  content <> "" -> no_backtick content = true ->
  lazy_body (content +:+ fence_close +:+ rest) = Some content.
Proof.
  induction content as [|c content IH]; intros Hne Hplain; [congruence|].
  simpl in Hplain. apply andb_true_iff in Hplain as [_ Hplain].
  rewrite append_cons, lazy_body_cons.
  destruct content as [|c' content].
  - rewrite append_nil, strip_close_self. reflexivity.
  - rewrite strip_close_content by (try discriminate; exact Hplain).
    rewrite IH by (try discriminate; exact Hplain). reflexivity.
Qed.

Lemma regex_match_reply (preface content rest : string) :
  no_backtick preface = true -> content <> "" -> no_backtick content = true ->
  regex_match (preface +:+ fence_open +:+ content +:+ fence_close +:+ rest)
  = Some content.
Proof.
  intros Hpre Hne Hplain. induction preface as [|c preface IH].
  - rewrite append_nil, regex_match_unfold.
    unfold match_at. rewrite strip_open_self. simpl.
    rewrite lazy_body_content by assumption. reflexivity.
  - simpl in Hpre. apply andb_true_iff in Hpre as [Hc Hpre].
    apply negb_true_iff in Hc.
    rewrite append_cons, regex_match_unfold.
    unfold match_at. rewrite strip_open_plain by exact Hc. simpl.
    exact (IH Hpre).
Qed.

End FencedReply.

(** X3.  A reply of the expected form, a preface without backticks, the
    opening fence, a content without backticks and the closing fence, is
    read as [JSON.parse] of the content, whatever follows the closing fence;
    an error is logged exactly when the content is not JSON. *)
Theorem parseMarkdownToJson_fenced_reply
    (h : Host) (preface content rest : string) :
  no_backtick preface = true -> content <> "" -> no_backtick content = true ->
  run (parseMarkdownToJson
         (preface +:+ fence_open +:+ content +:+ fence_close +:+ rest)) h
  = match JSON_parse h content with
    | Some v => (Returned v, [])
    | None => (Returned JNull, [console_error "Error parsing JSON:"])
    end.
Proof.
  intros Hpre Hne Hplain. unfold parseMarkdownToJson.
  rewrite (regex_match_reply preface content rest Hpre Hne Hplain).
  apply String.eqb_neq in Hne. rewrite Hne. run_M.
  destruct (JSON_parse h content); reflexivity.
Qed.

Lemma parseMarkdownToJson_fenced_reply_witness :
  let h := ref_host None empty_store accepting_store (fun _ => None) offline in
  no_backtick "Here is your itinerary:" = true /\
  "[1, 2]" <> "" /\
  no_backtick "[1, 2]" = true /\
  run (parseMarkdownToJson
         ("Here is your itinerary:" +:+ fence_open +:+ "[1, 2]" +:+ fence_close
          +:+ " Enjoy ```the``` trip!")) h
  = match JSON_parse h "[1, 2]" with
    | Some v => (Returned v, [])
    | None => (Returned JNull, [console_error "Error parsing JSON:"])
    end.
Proof.
  intros h.
  assert (H1 : no_backtick "Here is your itinerary:" = true) by reflexivity.
  assert (H2 : "[1, 2]" <> "") by discriminate.
  assert (H3 : no_backtick "[1, 2]" = true) by reflexivity.
  split; [exact H1 | split; [exact H2 | split; [exact H3|]]].
  exact (parseMarkdownToJson_fenced_reply h _ _ _ H1 H2 H3).
Defined.

(** ** create-trip: what a request can do *)

Section ActionCases.

Variable h : Host.

Lemma is_console_no_write (log : list Event) :
  Forall is_console log -> Forall no_write log.
Proof.
  intros Hlog. eapply Forall_impl; [exact Hlog|].
  intros e He. destruct e; try exact I; destruct He.
Qed.

Lemma fetched_console (log : list Event) :
  Forall is_console log -> fetched log = [].
Proof.
  induction 1 as [|e log He _ IH]; [reflexivity|].
  destruct e; try exact IH; destruct He.
Qed.

Lemma listed_console (log : list Event) :
  Forall is_console log -> listed log = [].
Proof.
  induction 1 as [|e log He _ IH]; [reflexivity|].
  destruct e; try exact IH; destruct He.
Qed.

Lemma fetched_app (tr1 tr2 : list Event) :
  fetched (tr1 ++ tr2) = fetched tr1 ++ fetched tr2.
Proof. apply omap_app. Qed.

Lemma listed_app (tr1 tr2 : list Event) :
  listed (tr1 ++ tr2) = listed tr1 ++ listed tr2.
Proof. apply omap_app. Qed.

(** [parseMarkdownToJson] only writes to the console. *)
Lemma parseMarkdownToJson_console (s : string) :
  exists v log,
    (forall tr, parseMarkdownToJson s h tr = (Returned v, tr ++ log)) /\
    Forall is_console log.
Proof.
  unfold parseMarkdownToJson.
  destruct (regex_match s) as [group1|].
  - destruct (negb (String.eqb group1 "")).
    + run_M. destruct (JSON_parse h group1) as [v|].
      * exists v, []. split; [intros tr; rewrite app_nil_r; reflexivity | constructor].
      * eexists JNull, [_]. split; [reflexivity | repeat constructor].
    + eexists JNull, [_]. split; [reflexivity | repeat constructor].
  - eexists JNull, [_]. split; [reflexivity | repeat constructor].
Qed.

Lemma regular_url_run (result : Json) (tr : list Event) :
  regular_url result h tr
  = (if is_null result then Threw TypeError else Returned (stored_url result), tr).
Proof. destruct result; reflexivity. Qed.

Lemma mapM_regular_url (items : list Json) (tr : list Event) :
  mapM regular_url items h tr
  = (if existsb is_null items then Threw TypeError
     else Returned (map stored_url items), tr).
Proof.
  induction items as [|x items IH]; [reflexivity|].
  rewrite mapM_cons, regular_url_run. simpl existsb.
  destruct (is_null x); [reflexivity|]. rewrite IH. simpl.
  destruct (existsb is_null items); reflexivity.
Qed.

Lemma image_urls_run (photos : Json) (tr : list Event) :
  image_urls photos h tr
  = (match photo_urls photos with
     | Some urls => Returned urls
     | None => Threw TypeError
     end, tr).
Proof.
  unfold image_urls, photo_urls, member.
  destruct photos as [| | | | |fields]; try reflexivity.
  run_M. destruct (assoc "results" fields) as [[| | | |items|]|]; try reflexivity.
  rewrite mapM_regular_url.
  destruct (existsb is_null (take 3 items)); reflexivity.
Qed.

Lemma or_null_null_or_truthy (v : option Json) : null_or_truthy (or_null v).
Proof.
  unfold null_or_truthy, or_null. destruct v as [j|]; [|left; reflexivity].
  destruct (truthy (Some j)) eqn:Ht; [right; exact Ht | left; reflexivity].
Qed.

Lemma photo_urls_shape (photos : Json) (urls : list Json) :
  photo_urls photos = Some urls ->
  length urls <= 3 /\ Forall null_or_truthy urls.
Proof.
  unfold photo_urls.
  destruct (prop photos "results") as [[| | | |items|]|]; try discriminate.
  destruct (existsb is_null (take 3 items)); [discriminate|].
  intros [= <-]. split.
  - rewrite length_map, length_take. lia.
  - apply Forall_forall. intros u Hu. apply list_elem_of_In in Hu.
    apply in_map_iff in Hu as (x & <- & _).
    apply or_null_null_or_truthy.
Qed.

(** Every run of the action on a readable request. *)
Lemma action_cases (body : Json) :
  body <> JNull ->
  let asked := ev_generateContent (prompt_of body) in
  let searched := ev_fetch (photo_search_of body) in
  let failed := console_error "Error in creating trip " in
  let failure := Returned (resp_error "Failed to create trip") in
  (generateContent h (prompt_of body) = None /\
   run (action (Some body)) h = (failure, [asked; failed])) \/
  exists reply trip log,
    generateContent h (prompt_of body) = Some reply /\
    run (parseMarkdownToJson reply) h = (Returned trip, log) /\
    Forall is_console log /\
    ((match fetch h (photo_search_of body) with
      | HttpResponse _ (Some photos) => photo_urls photos = None
      | _ => True
      end /\
      run (action (Some body)) h
      = (failure, asked :: log ++ [searched; failed])) \/
     exists ok photos urls,
       fetch h (photo_search_of body) = HttpResponse ok (Some photos) /\
       photo_urls photos = Some urls /\
       let d := trip_data (JSON_stringify h trip) (now_toISOString h) urls
                  (prop body "userId") in
       match createDocument h tripCollection d with
       | Some doc =>
           run (action (Some body)) h
           = (Returned (resp_id (doc !! "$id")),
              asked :: log ++ [searched; ev_createDocument tripCollection d])
       | None =>
           run (action (Some body)) h
           = (failure,
              asked :: log ++ [searched; ev_createDocument tripCollection d; failed])
       end).
Proof.
  intros Hbody asked searched failed failure.
  rewrite (action_unfold body Hbody).
  unfold run, try_catch, action_try, action_catch, do_fetch, response_json,
    database_createDocument.
  run_M.
  destruct (generateContent h (prompt_of body)) as [reply|];
    [right | left; split; reflexivity].
  destruct (parseMarkdownToJson_console reply) as (trip & log & Hparse & Hlog).
  exists reply, trip, log. split; [reflexivity|].
  split; [rewrite (Hparse []); reflexivity|]. split; [exact Hlog|].
  rewrite Hparse.
  destruct (fetch h (photo_search_of body)) as [|ok [photos|]] eqn:Hfetch; simpl.
  - left. split; [exact I|]. rewrite <- app_assoc. reflexivity.
  - rewrite image_urls_run.
    destruct (photo_urls photos) as [urls|] eqn:Hurls; simpl.
    + right. exists ok, photos, urls. split; [reflexivity|].
      split; [exact Hurls|]. simpl.
      destruct (createDocument h tripCollection _); simpl;
        rewrite <- !app_assoc; reflexivity.
    + left. split; [reflexivity|]. rewrite <- app_assoc. reflexivity.
  - left. split; [exact I|]. rewrite <- app_assoc. reflexivity.
Qed.



Lemma existsb_is_null (items : list Json) :
  existsb is_null items = true <-> JNull ∈ items.
Proof.
  rewrite existsb_exists. split.
  - intros (x & Hin & Hx). destruct x; try discriminate.
    apply list_elem_of_In. exact Hin.
  - intros Hin. exists JNull. split; [apply list_elem_of_In; exact Hin | reflexivity].
Qed.

End ActionCases.

(** The writes, searches and listings of a trace of the action. *)
Ltac effects_of Hlog :=
  unfold run; simpl;
  change (?e :: ?l ++ ?m) with ([e] ++ l ++ m);
  rewrite ?created_app, ?fetched_app, ?listed_app;
  rewrite ?(created_console _ _ (is_console_no_write _ Hlog)),
    ?(fetched_console _ Hlog), ?(listed_console _ Hlog);
  simpl.

(** X4.  On every readable request the action never lists the store and
    never writes a profile; it asks the store for at most one trip document
    and the photo search at most once; when the model call rejects it
    contacts neither; and it answers with an id only if the store accepted
    the document it asked for, the id being that of the stored document. *)
Theorem action_effects (h : Host) (body : Json) :
  body <> JNull ->
  let r := run (action (Some body)) h in
  created userCollection (snd r) = [] /\
  listed (snd r) = [] /\
  length (created tripCollection (snd r)) <= 1 /\
  (fetched (snd r) = [] \/ fetched (snd r) = [photo_search_of body]) /\
  (generateContent h (prompt_of body) = None ->
   fetched (snd r) = [] /\ created tripCollection (snd r) = []) /\
  (forall i, fst r = Returned (resp_id i) ->
     exists d doc,
       created tripCollection (snd r) = [d] /\
       createDocument h tripCollection d = Some doc /\
       i = doc !! "$id").
Proof.
  intros Hbody r. subst r.
  destruct (action_cases h body Hbody)
    as [[Hgen ->] | (reply & trip & log & Hgen & _ & Hlog &
                     [[_ ->] | (ok & photos & urls & _ & _ & Hstore)])].
  - simpl. split; [reflexivity|]. split; [reflexivity|]. split; [lia|].
    split; [left; reflexivity|]. split; [intros _; split; reflexivity|].
    intros i [=].
  - effects_of Hlog.
    split; [reflexivity|]. split; [reflexivity|]. split; [lia|].
    split; [right; reflexivity|]. split; [congruence|].
    intros i [=].
  - simpl in Hstore.
    destruct (createDocument h tripCollection _) as [doc|] eqn:Hdoc;
      rewrite Hstore; effects_of Hlog;
      (split; [reflexivity|]); (split; [reflexivity|]); (split; [lia|]);
      (split; [right; reflexivity|]); (split; [congruence|]).
    + intros i [= <-]. eexists _, doc. split; [reflexivity|].
      split; [exact Hdoc | reflexivity].
    + intros i [=].
Qed.

Lemma action_effects_witness :
  let h := ref_host (Some sample_account) empty_store accepting_store
             (fun _ => Some fenced_reply) no_photos in
  sample_request <> JNull /\
  created userCollection (snd (run (action (Some sample_request)) h)) = [] /\
  length (created tripCollection (snd (run (action (Some sample_request)) h))) <= 1.
Proof.
  intros h. assert (Hbody : sample_request <> JNull) by discriminate.
  split; [exact Hbody|].
  destruct (action_effects h sample_request Hbody) as (Hu & _ & Hone & _).
  split; [exact Hu | exact Hone].
Defined.

(** X5.  Given the model's reply and a photo search that answers with a
    [results] array: if one of its first three entries is [null] the request
    fails and nothing is written; otherwise the stored image list is made of
    the [urls.regular] of the first three entries, [null] standing in for an
    entry without one, so it has at most three elements. *)
Theorem action_stored_images
    (h : Host) (body : Json) (reply : string) (ok : bool) (photos : Json)
    (items : list Json) :
  body <> JNull ->
  generateContent h (prompt_of body) = Some reply ->
  fetch h (photo_search_of body) = HttpResponse ok (Some photos) ->
  prop photos "results" = Some (JArray items) ->
  let r := run (action (Some body)) h in
  (JNull ∈ take 3 items ->
   fst r = Returned (resp_error "Failed to create trip") /\
   created tripCollection (snd r) = []) /\
  (JNull ∉ take 3 items ->
   exists d,
     created tripCollection (snd r) = [d] /\
     d !! "imageUrls" = Some (JArray (map stored_url (take 3 items))) /\
     length (map stored_url (take 3 items)) <= 3 /\
     Forall null_or_truthy (map stored_url (take 3 items))).
Proof.
  intros Hbody Hgen Hfetch Hres r. subst r.
  assert (Hurls : photo_urls photos
                  = if existsb is_null (take 3 items) then None
                    else Some (map stored_url (take 3 items)))
    by (unfold photo_urls; rewrite Hres; reflexivity).
  destruct (action_cases h body Hbody)
    as [[Hnone _] | (reply' & trip & log & _ & _ & Hlog &
                     [[Hfail Hrun] | (ok' & photos' & urls & Hf & Hu & Hstore)])].
  - congruence.
  - rewrite Hfetch in Hfail. rewrite Hurls in Hfail. split.
    + intros _. rewrite Hrun. split; [reflexivity|].
      unfold run. simpl. change (?e :: ?l ++ ?m) with ([e] ++ l ++ m).
      rewrite !created_app,
        (created_console _ _ (is_console_no_write _ Hlog)).
      reflexivity.
    + intros Hnot. apply (not_iff_compat (existsb_is_null _)) in Hnot.
      apply not_true_is_false in Hnot. rewrite Hnot in Hfail. discriminate.
  - rewrite Hfetch in Hf. injection Hf as <- <-. rewrite Hurls in Hu. split.
    + intros Hnull. apply existsb_is_null in Hnull. rewrite Hnull in Hu.
      discriminate.
    + intros _. destruct (existsb is_null (take 3 items)); [discriminate|].
      injection Hu as <-. simpl in Hstore.
      eexists. split; [|split; [|exact (photo_urls_shape photos _
                                          ltac:(rewrite Hurls; reflexivity))]].
      * destruct (createDocument h tripCollection _); rewrite Hstore;
          unfold run; simpl; change (?e :: ?l ++ ?m) with ([e] ++ l ++ m);
          rewrite !created_app,
            (created_console _ _ (is_console_no_write _ Hlog));
          reflexivity.
      * unfold trip_data. destruct (prop body "userId"); reflexivity.
Qed.

Lemma action_stored_images_witness :
  let h := ref_host (Some sample_account) empty_store accepting_store
             (fun _ => Some fenced_reply) two_photos in
  let kyoto := JObject [("urls",
                         JObject [("regular",
                                   JString "https://images.example/kyoto.jpg")])] in
  let bare := JObject [("id", JString "Zk3v9")] in
  exists d,
    created tripCollection (snd (run (action (Some sample_request)) h)) = [d] /\
    d !! "imageUrls"
    = Some (JArray [JString "https://images.example/kyoto.jpg"; JNull]).
Proof.
  intros h kyoto bare.
  assert (Hbody : sample_request <> JNull) by discriminate.
  destruct (action_stored_images h sample_request fenced_reply true
              (JObject [("total", JNumber (of_Z 2));
                        ("results", JArray [kyoto; bare])])
              [kyoto; bare] Hbody eq_refl eq_refl eq_refl) as [_ Hstored].
  destruct Hstored as (d & Hd & Hurls & _).
  - intros Hnull. apply (proj2 (existsb_is_null _)) in Hnull. discriminate.
  - exists d. split; [exact Hd | exact Hurls].
Defined.

(** X6.  When the model's reply carries its itinerary in a fenced block that
    parses, the photo search answers (with any HTTP status) a usable result
    list and the store accepts the write, the action writes nothing to the
    console, stores the serialisation of the parsed block together with the
    request's user id, the current time and the photo urls, and answers with
    the id of the stored document. *)
Theorem action_stores_fenced_itinerary
    (h : Host) (body : Json) (preface content rest : string) (v : Json)
    (ok : bool) (photos : Json) (urls : list Json) (doc : Document) :
  body <> JNull ->
  no_backtick preface = true ->
  content <> "" ->
  no_backtick content = true ->
  generateContent h (prompt_of body)
  = Some (preface +:+ fence_open +:+ content +:+ fence_close +:+ rest) ->
  JSON_parse h content = Some v ->
  fetch h (photo_search_of body) = HttpResponse ok (Some photos) ->
  photo_urls photos = Some urls ->
  let d := trip_data (JSON_stringify h v) (now_toISOString h) urls
             (prop body "userId") in
  createDocument h tripCollection d = Some doc ->
  run (action (Some body)) h
  = (Returned (resp_id (doc !! "$id")),
     [ev_generateContent (prompt_of body);
      ev_fetch (photo_search_of body);
      ev_createDocument tripCollection d]).
Proof.
  intros Hbody Hpre Hne Hcontent Hgen Hparse Hfetch Hurls d Hdoc. subst d.
  assert (Hrun : run (parseMarkdownToJson
                        (preface +:+ fence_open +:+ content +:+ fence_close +:+ rest)) h
                 = (Returned v, [])).
  { unfold run, parseMarkdownToJson.
    rewrite (regex_match_reply preface content rest Hpre Hne Hcontent).
    destruct (String.eqb_spec content "") as [E|_]; [contradiction|].
    simpl. run_M. rewrite Hparse. reflexivity. }
  destruct (action_cases h body Hbody)
    as [[Hnone _] | (reply & trip & log & Hgen' & Hrun' & _ &
                     [[Hfail _] | (ok' & photos' & urls' & Hf & Hu & Hstore)])].
  - congruence.
  - rewrite Hfetch, Hurls in Hfail. discriminate.
  - rewrite Hgen in Hgen'. injection Hgen' as <-.
    rewrite Hrun in Hrun'. injection Hrun' as <- <-.
    rewrite Hfetch in Hf. injection Hf as <- <-.
    rewrite Hurls in Hu. injection Hu as <-.
    simpl in Hstore. rewrite Hdoc in Hstore. exact Hstore.
Qed.

Lemma action_stores_fenced_itinerary_witness :
  let h := ref_host (Some sample_account) empty_store accepting_store
             (fun _ => Some fenced_reply) two_photos in
  fst (run (action (Some sample_request)) h)
  = Returned (resp_id (Some (JString "68b21eb500253ed84e76"))) /\
  length (snd (run (action (Some sample_request)) h)) = 3.
Proof.
  intros h.
  assert (Hbody : sample_request <> JNull) by discriminate.
  assert (Hne : "{" +:+ RefJSON.quote "itinerary" +:+ ": [{"
                +:+ RefJSON.quote "day" +:+ ": 1}]}" <> "") by discriminate.
  pose proof (action_stores_fenced_itinerary h sample_request
                ("Here is your itinerary:" +:+ newline) _ newline
                _ true _ _ _
                Hbody eq_refl Hne eq_refl eq_refl eq_refl eq_refl eq_refl eq_refl)
    as Hrun.
  rewrite Hrun. split; reflexivity.
Defined.

(** ** Profiles, pictures and the loaders of the guarded pages *)

Section AuthCases.

Variable h : Host.

(** Every run of the picture lookup. *)
Lemma getGooglePicture_cases (accessToken : string) :
  exists pic log,
    (forall tr,
        getGooglePicture accessToken h tr
        = (Returned pic, tr ++ ev_fetch (GooglePeople accessToken) :: log)) /\
    Forall is_console log /\
    null_or_truthy pic /\
    (forall ok body,
        fetch h (GooglePeople accessToken) = HttpResponse ok body ->
        ok = false \/ body = None \/ body = Some JNull -> pic = JNull) /\
    (fetch h (GooglePeople accessToken) = NetworkError -> pic = JNull) /\
    (pic = JNull \/ log = []).
Proof.
  unfold getGooglePicture, do_fetch, response_json, member. run_M.
  destruct (fetch h (GooglePeople accessToken)) as [|[|] [[| | | | |]|]]; simpl;
    eexists _, _;
    (split; [intros tr; rewrite <- ?app_assoc; simpl; reflexivity|]);
    (split; [repeat constructor|]);
    (split; [first [apply or_null_null_or_truthy | left; reflexivity]|]);
    (split; [intros ok body [= <- <-] [?|[?|?]]; first [reflexivity | discriminate]
            |]);
    (split; [intros; first [reflexivity | discriminate]|]);
    first [left; reflexivity | right; reflexivity].
Qed.

(** Every run of [storeUserData]. *)
Lemma storeUserData_cases :
  let failed := console_error "Error storing user data:" in
  match account_get h, account_getSession h with
  | Some user, Some token =>
      exists pic log,
        let d := profile_data user pic (now_toISOString h) in
        (forall tr,
            storeUserData h tr
            = (Returned tt,
               tr ++ log ++ ev_createDocument userCollection d
                  :: (if createDocument h userCollection d is Some _ then []
                      else [failed]))) /\
        null_or_truthy pic /\
        match token with
        | Some t =>
            if String.eqb t "" then log = [] /\ pic = JNull
            else exists log',
                log = ev_fetch (GooglePeople t) :: log' /\ Forall is_console log'
        | None => log = [] /\ pic = JNull
        end
  | _, _ => forall tr, storeUserData h tr = (Returned tt, tr ++ [failed])
  end.
Proof.
  intros failed. unfold storeUserData, database_createDocument.
  destruct (account_get h) as [user|] eqn:Hget;
    [|intros tr; run_M; rewrite Hget; reflexivity].
  destruct (account_getSession h) as [token|] eqn:Hsession;
    [|intros tr; run_M; rewrite Hget; simpl; rewrite Hsession; reflexivity].
  assert (Hpic : exists pic log,
             (forall tr,
                 match token with
                 | Some t => if String.eqb t "" then mret JNull
                             else getGooglePicture t
                 | None => mret JNull
                 end h tr = (Returned pic, tr ++ log)) /\
             null_or_truthy pic /\
             match token with
             | Some t =>
                 if String.eqb t "" then log = [] /\ pic = JNull
                 else exists log',
                     log = ev_fetch (GooglePeople t) :: log' /\
                     Forall is_console log'
             | None => log = [] /\ pic = JNull
             end).
  { destruct token as [t|].
    - destruct (String.eqb t "").
      + exists JNull, []. split; [intros tr; rewrite app_nil_r; reflexivity|].
        split; [left; reflexivity | split; reflexivity].
      + destruct (getGooglePicture_cases t) as (pic & log & Hrun & Hlog & Hpic & _).
        exists pic, (ev_fetch (GooglePeople t) :: log).
        split; [exact Hrun|]. split; [exact Hpic|].
        exists log. split; [reflexivity | exact Hlog].
    - exists JNull, []. split; [intros tr; rewrite app_nil_r; reflexivity|].
      split; [left; reflexivity | split; reflexivity]. }
  destruct Hpic as (pic & log & Hrun & Hpic & Hshape).
  exists pic, log. split; [|split; [exact Hpic | exact Hshape]].
  intros tr. run_M. rewrite Hget. simpl. rewrite Hsession. simpl.
  rewrite Hrun. simpl.
  destruct (createDocument h userCollection
              (profile_data user pic (now_toISOString h)));
    simpl; rewrite <- ?app_assoc; reflexivity.
Qed.

(** [storeUserData] resolves on every host. *)
Lemma storeUserData_returns :
  exists log, forall tr, storeUserData h tr = (Returned tt, tr ++ log).
Proof.
  pose proof storeUserData_cases as Hcases. simpl in Hcases.
  destruct (account_get h) as [user|]; [|eexists; exact Hcases].
  destruct (account_getSession h) as [token|]; [|eexists; exact Hcases].
  destruct Hcases as (pic & log & Hrun & _). eexists. exact Hrun.
Qed.

(** Every run of the profile lookup. *)
Lemma getExistingUser_cases (id : string) (tr : list Event) :
  let lookup := ev_listDocuments userCollection [Query_equal "accountId" id] in
  getExistingUser id h tr
  = match listDocuments h userCollection [Query_equal "accountId" id] with
    | Some r =>
        (Returned (if bool_decide (total r > 0)%Z then head (documents r)
                   else None),
         tr ++ [lookup])
    | None =>
        (Returned None, tr ++ [lookup; console_error "Error fetching user:"])
    end.
Proof.
  unfold getExistingUser, database_listDocuments. run_M.
  destruct (listDocuments h userCollection [Query_equal "accountId" id]);
    simpl; rewrite <- ?app_assoc; reflexivity.
Qed.

(** The guard of the admin pages resolves on every host, and sends the
    visitor to sign-in exactly when there is no account with an id. *)
Lemma clientLoader_sign_in :
  exists res tr,
    run clientLoader h = (Returned res, tr) /\
    (res = redirect "/sign-in" <->
     match account_get h with
     | Some user => account_id user = ""
     | None => True
     end).
Proof.
  unfold clientLoader. run_M.
  destruct (account_get h) as [user|]; simpl;
    [|eexists _, _; split; [reflexivity | tauto]].
  destruct (String.eqb_spec (account_id user) "") as [Hid|Hid];
    [eexists _, _; split; [reflexivity | tauto]|].
  rewrite getExistingUser_cases.
  set (found := match listDocuments h userCollection _ with
                | Some r => _
                | None => _
                end).
  destruct found as [[existingUser|e] tr'] eqn:Hfound.
  - simpl.
    destruct (is_string _ "user");
      [eexists _, _; split; [reflexivity | split; [discriminate | contradiction]]|].
    destruct (truthy _);
      [eexists _, _; split; [reflexivity | split; [discriminate | contradiction]]|].
    destruct storeUserData_returns as [log Hrun]. rewrite Hrun. simpl.
    eexists _, _. split; [reflexivity | split; [discriminate | contradiction]].
  - subst found.
    destruct (listDocuments h userCollection _); discriminate.
Qed.

(** Every run of the sign-in page's loader. *)
Lemma SignIn_clientLoader_cases :
  run SignIn.clientLoader h
  = match account_get h with
    | Some user =>
        (Returned (if String.eqb (account_id user) "" then loaded None
                   else redirect "/"), [])
    | None => (Returned (loaded None), [console_log "Error fetching user"])
    end.
Proof.
  unfold SignIn.clientLoader, blank. run_M.
  destruct (account_get h) as [user|]; simpl; [|reflexivity].
  destruct (String.eqb (account_id user) ""); reflexivity.
Qed.

End AuthCases.

(** X7.  The picture lookup sends exactly one request, the first thing it
    does, never throws and otherwise only writes to the console; its result
    is [null] or a truthy value, and is [null] whenever the request fails,
    the response is not ok (whatever its body holds) or the body is not JSON
    or is [null]. *)
Theorem getGooglePicture_spec (h : Host) (accessToken : string) :
  exists pic tr,
    run (getGooglePicture accessToken) h = (Returned pic, tr) /\
    fetched tr = [GooglePeople accessToken] /\
    head tr = Some (ev_fetch (GooglePeople accessToken)) /\
    listed tr = [] /\
    created userCollection tr = [] /\
    created tripCollection tr = [] /\
    null_or_truthy pic /\
    (forall ok body,
        fetch h (GooglePeople accessToken) = HttpResponse ok body ->
        ok = false \/ body = None \/ body = Some JNull -> pic = JNull) /\
    (fetch h (GooglePeople accessToken) = NetworkError -> pic = JNull).
Proof.
  destruct (getGooglePicture_cases h accessToken)
    as (pic & log & Hrun & Hlog & Hpic & Hbad & Hnet & _).
  exists pic, (ev_fetch (GooglePeople accessToken) :: log).
  split; [unfold run; rewrite Hrun; reflexivity|].
  change (?e :: log) with ([e] ++ log).
  rewrite fetched_app, listed_app, !created_app.
  rewrite (fetched_console _ Hlog), (listed_console _ Hlog),
    !(created_console _ _ (is_console_no_write _ Hlog)).
  repeat (split; [reflexivity|]).
  split; [exact Hpic | split; [exact Hbad | exact Hnet]].
Qed.

(** X8.  [storeUserData] resolves on every host, never lists the store and
    never writes a trip.  It asks for at most one profile, which holds the
    account's data, the current time and a picture that is [null] or truthy.
    It contacts Google only when the session carries a non-empty provider
    token, and without one the stored picture is [null]. *)
Theorem storeUserData_effects (h : Host) :
  exists tr,
    run storeUserData h = (Returned tt, tr) /\
    listed tr = [] /\
    created tripCollection tr = [] /\
    (created userCollection tr = [] \/
     exists user pic,
       account_get h = Some user /\
       created userCollection tr = [profile_data user pic (now_toISOString h)] /\
       null_or_truthy pic /\
       (fetched tr = [] -> pic = JNull)) /\
    (fetched tr = [] \/
     exists t,
       account_getSession h = Some (Some t) /\ t <> "" /\
       fetched tr = [GooglePeople t]).
Proof.
  pose proof (storeUserData_cases h) as Hcases. simpl in Hcases.
  destruct (account_get h) as [user|];
    [|eexists; split; [unfold run; rewrite Hcases; reflexivity|];
      simpl; repeat split; left; reflexivity].
  destruct (account_getSession h) as [token|];
    [|eexists; split; [unfold run; rewrite Hcases; reflexivity|];
      simpl; repeat split; left; reflexivity].
  destruct Hcases as (pic & log & Hrun & Hpic & Hshape).
  exists (log ++ ev_createDocument userCollection
                    (profile_data user pic (now_toISOString h))
                 :: (if createDocument h userCollection
                          (profile_data user pic (now_toISOString h)) is Some _
                     then [] else [console_error "Error storing user data:"])).
  split; [unfold run; rewrite Hrun; reflexivity|].
  assert (Hlog : Forall no_write log /\ listed log = [] /\
                 (fetched log = [] /\ pic = JNull \/
                  exists t, token = Some t /\ t <> "" /\
                            fetched log = [GooglePeople t])).
  { destruct token as [t|].
    - destruct (String.eqb_spec t "") as [Ht|Ht].
      + destruct Hshape as [-> ->]. split; [constructor|].
        split; [reflexivity | left; split; reflexivity].
      + destruct Hshape as (log' & -> & Hlog').
        split; [constructor; [exact I | exact (is_console_no_write _ Hlog')]|].
        split; [exact (listed_console _ Hlog')|].
        right. exists t. split; [reflexivity|]. split; [exact Ht|].
        simpl. change (omap _ log') with (fetched log').
        rewrite (fetched_console _ Hlog'). reflexivity.
    - destruct Hshape as [-> ->]. split; [constructor|].
      split; [reflexivity | left; split; reflexivity]. }
  destruct Hlog as (Hquiet & Hlisted & Hfetched).
  rewrite listed_app, !created_app, fetched_app, Hlisted,
    !(created_console _ _ Hquiet).
  assert (Htail : forall tail : list Event,
             tail = [] \/ tail = [console_error "Error storing user data:"] ->
             listed (ev_createDocument userCollection
                       (profile_data user pic (now_toISOString h)) :: tail) = [] /\
             created tripCollection
               (ev_createDocument userCollection
                  (profile_data user pic (now_toISOString h)) :: tail) = [] /\
             created userCollection
               (ev_createDocument userCollection
                  (profile_data user pic (now_toISOString h)) :: tail)
             = [profile_data user pic (now_toISOString h)] /\
             fetched (ev_createDocument userCollection
                        (profile_data user pic (now_toISOString h)) :: tail) = []).
  { intros tail [-> | ->]; repeat split; reflexivity. }
  destruct (Htail (if createDocument h userCollection
                        (profile_data user pic (now_toISOString h)) is Some _
                   then [] else [console_error "Error storing user data:"]))
    as (-> & -> & -> & ->).
  { destruct (createDocument h userCollection _); [left | right]; reflexivity. }
  rewrite !app_nil_r. simpl.
  split; [reflexivity|]. split; [reflexivity|]. split.
  - right. exists user, pic. split; [reflexivity|]. split; [reflexivity|].
    split; [exact Hpic|].
    destruct Hfetched as [[_ Hnull] | (t & _ & _ & Hf)];
      [intros _; exact Hnull | rewrite Hf; discriminate].
  - destruct Hfetched as [[Hf _] | (t & -> & Ht & Hf)];
      [left; exact Hf | right; exists t; repeat split; assumption].
Qed.

(** X9.  The guard of the admin pages resolves on every host, and it sends
    the visitor to the sign-in page exactly when the sign-in page's own
    loader lets the visitor stay there; otherwise that loader redirects to
    the root. *)
Theorem clientLoader_agrees_with_sign_in (h : Host) :
  (exists res, fst (run clientLoader h) = Returned res) /\
  (fst (run clientLoader h) = Returned (redirect "/sign-in") <->
   fst (run SignIn.clientLoader h) = Returned (loaded None)) /\
  (fst (run clientLoader h) <> Returned (redirect "/sign-in") ->
   run SignIn.clientLoader h = (Returned (redirect "/"), [])).
Proof.
  destruct (clientLoader_sign_in h) as (res & tr & Hrun & Hres).
  rewrite Hrun, SignIn_clientLoader_cases. simpl.
  split; [exists res; reflexivity|].
  destruct (account_get h) as [user|]; simpl.
  - destruct (String.eqb_spec (account_id user) "") as [Hid|Hid].
    + split; [|intros Hnot; exfalso; apply Hnot; f_equal; apply Hres; exact Hid].
      split; [reflexivity | intros _; f_equal; apply Hres; exact Hid].
    + split; [|reflexivity].
      split; [intros [= Hr]; apply Hres in Hr; contradiction | discriminate].
  - split; [|intros Hnot; exfalso; apply Hnot; f_equal; apply Hres; exact I].
    split; [reflexivity | intros _; f_equal; apply Hres; exact I].
Qed.

(** X10.  When the lookup of the profile rejects, the guard treats the
    account as having no profile: it logs the error, asks the store to
    create a profile for the account and lets the visitor in without one. *)
Theorem clientLoader_lookup_rejected
    (h : Host) (user : Account) (token : option string) :
  account_get h = Some user ->
  account_id user <> "" ->
  listDocuments h userCollection [Query_equal "accountId" (account_id user)]
  = None ->
  account_getSession h = Some token ->
  exists pic tr,
    run clientLoader h
    = (Returned (loaded None),
       ev_listDocuments userCollection [Query_equal "accountId" (account_id user)]
       :: console_error "Error fetching user:" :: tr) /\
    created userCollection tr = [profile_data user pic (now_toISOString h)].
Proof.
  intros Hget Hid Hlist Hsession.
  apply String.eqb_neq in Hid.
  pose proof (storeUserData_cases h) as Hcases. simpl in Hcases.
  rewrite Hget, Hsession in Hcases.
  destruct Hcases as (pic & log & Hrun & _ & Hshape).
  exists pic.
  unfold clientLoader. run_M. rewrite Hget. simpl. rewrite Hid.
  rewrite getExistingUser_cases, Hlist. simpl. rewrite Hrun. simpl.
  eexists. split; [reflexivity|].
  assert (Hquiet : Forall no_write log).
  { destruct token as [t|]; [destruct (String.eqb t "")|].
    - destruct Hshape as [-> _]. constructor.
    - destruct Hshape as (log' & -> & Hlog').
      constructor; [exact I | exact (is_console_no_write _ Hlog')].
    - destruct Hshape as [-> _]. constructor. }
  rewrite created_app, (created_console _ _ Hquiet).
  destruct (createDocument h userCollection _); reflexivity.
Qed.

Lemma clientLoader_lookup_rejected_witness :
  let h := ref_host (Some sample_account) (fun _ _ => None) accepting_store
             (fun _ => None) offline in
  exists pic tr,
    run clientLoader h
    = (Returned (loaded None),
       ev_listDocuments userCollection
         [Query_equal "accountId" "66f0a1c2000d3b7e9a11"]
       :: console_error "Error fetching user:" :: tr) /\
    created userCollection tr
    = [profile_data sample_account pic "2025-08-30T09:15:00.000Z"].
Proof.
  intros h.
  assert (Hid : account_id sample_account <> "") by discriminate.
  exact (clientLoader_lookup_rejected h sample_account None
           eq_refl Hid eq_refl eq_refl).
Defined.

(** X11.  A profile that the store hands back exactly as [storeUserData]
    wrote it, under a non-empty document id, carries no role, and the guard
    of the admin pages lets its owner in. *)
Theorem clientLoader_admits_fresh_profile
    (h : Host) (user : Account) (r : DocumentList)
    (pic : Json) (joinedAt id : string) :
  account_get h = Some user ->
  account_id user <> "" ->
  listDocuments h userCollection [Query_equal "accountId" (account_id user)]
  = Some r ->
  (total r > 0)%Z ->
  id <> "" ->
  let profile := <["$id" := JString id]> (profile_data user pic joinedAt) in
  head (documents r) = Some profile ->
  run clientLoader h
  = (Returned (loaded (Some profile)),
     [ev_listDocuments userCollection
        [Query_equal "accountId" (account_id user)]]).
Proof.
  intros Hget Hid Hlist Htotal Hdoc profile Hhead.
  apply String.eqb_neq in Hid. apply String.eqb_neq in Hdoc.
  unfold clientLoader. run_M. rewrite Hget. simpl. rewrite Hid.
  rewrite getExistingUser_cases, Hlist.
  rewrite bool_decide_eq_true_2 by exact Htotal. rewrite Hhead. simpl.
  assert (Hstatus : profile !! "status" = None).
  { unfold profile. rewrite lookup_insert_ne by done.
    apply profile_data_status. }
  assert (Hdollar : profile !! "$id" = Some (JString id)).
  { unfold profile. apply lookup_insert_eq. }
  rewrite Hstatus, Hdollar. simpl. rewrite Hdoc. reflexivity.
Qed.

Lemma clientLoader_admits_fresh_profile_witness :
  let profile := <["$id" := JString "670f3c1a0019d2a4b6e3"]>
                   (profile_data sample_account JNull "2025-07-31T18:40:00.000Z") in
  let h := ref_host (Some sample_account) (store_with profile) accepting_store
             (fun _ => None) offline in
  run clientLoader h
  = (Returned (loaded (Some profile)),
     [ev_listDocuments userCollection
        [Query_equal "accountId" "66f0a1c2000d3b7e9a11"]]).
Proof.
  intros profile h.
  assert (Hid : account_id sample_account <> "") by discriminate.
  assert (Hdoc : "670f3c1a0019d2a4b6e3" <> "") by discriminate.
  assert (Htotal : (1 > 0)%Z) by lia.
  exact (clientLoader_admits_fresh_profile h sample_account
           {| documents := [profile]; total := 1 |}
           JNull "2025-07-31T18:40:00.000Z" "670f3c1a0019d2a4b6e3"
           eq_refl Hid eq_refl Htotal Hdoc eq_refl).
Defined.

Lemma getGooglePicture_spec_witness :
  let h := ref_host (Some sample_account) empty_store accepting_store
             (fun _ => None) offline in
  exists tr,
    run (getGooglePicture "ya29.a0AfB") h = (Returned JNull, tr) /\
    fetched tr = [GooglePeople "ya29.a0AfB"].
Proof.
  intros h.
  destruct (getGooglePicture_spec h "ya29.a0AfB")
    as (pic & tr & Hrun & Hfetched & _ & _ & _ & _ & _ & _ & Hnet).
  exists tr. rewrite <- (Hnet eq_refl). split; [exact Hrun | exact Hfetched].
Defined.

Lemma storeUserData_effects_witness :
  let h := ref_host (Some sample_account) empty_store accepting_store
             (fun _ => None) offline in
  exists tr,
    run storeUserData h = (Returned tt, tr) /\
    created tripCollection tr = [].
Proof.
  intros h.
  destruct (storeUserData_effects h) as (tr & Hrun & _ & Htrips & _).
  exists tr. split; [exact Hrun | exact Htrips].
Defined.

Lemma clientLoader_agrees_with_sign_in_witness :
  let h := ref_host None empty_store accepting_store (fun _ => None) offline in
  fst (run clientLoader h) = Returned (redirect "/sign-in").
Proof.
  intros h.
  destruct (clientLoader_agrees_with_sign_in h) as (_ & Hiff & _).
  apply Hiff. reflexivity.
Defined.

(** X12.  [getUser] resolves on every host and writes nothing.  It answers
    with a redirect to sign-in only for an account whose profile listing
    holds no document, with the first listed document when there is one
    (whatever total the store reports), and with [null] when the account or
    the listing cannot be read. *)
Theorem getUser_spec (h : Host) :
  let queries (user : Account) :=
    [Query_equal "accountId" (account_id user);
     Query_select ["name"; "email"; "imageUrl"; "joinedAt"; "accountId"]] in
  exists res tr,
    run getUser h = (Returned res, tr) /\
    created userCollection tr = [] /\
    created tripCollection tr = [] /\
    fetched tr = [] /\
    match account_get h with
    | Some user =>
        listed tr = [(userCollection, queries user)] /\
        match listDocuments h userCollection (queries user) with
        | Some r =>
            res = match head (documents r) with
                  | Some profile => loaded (Some profile)
                  | None => redirect "/sign-in"
                  end
        | None => res = loaded None
        end
    | None => listed tr = [] /\ res = loaded None
    end.
Proof.
  intros queries. unfold getUser, database_listDocuments. run_M.
  destruct (account_get h) as [user|]; simpl;
    [|eexists _, _; split; [reflexivity|]; repeat split; reflexivity].
  fold (queries user).
  destruct (listDocuments h userCollection (queries user)); simpl;
    eexists _, _; (split; [reflexivity|]); repeat split; reflexivity.
Qed.

Lemma getUser_spec_witness :
  let h := ref_host None empty_store accepting_store (fun _ => None) offline in
  exists tr, run getUser h = (Returned (loaded None), tr) /\ listed tr = [].
Proof.
  intros h.
  destruct (getUser_spec h) as (res & tr & Hrun & _ & _ & _ & Hlisted & Hres).
  exists tr. rewrite <- Hres. split; [exact Hrun | exact Hlisted].
Defined.

(** X13.  [getAllUsers] resolves on every host after exactly one listing of
    the profiles with the given limit and offset.  It reports the store's
    total, and the store's documents unless that total is 0; when the
    listing rejects it logs the failure and reports no users and total 0.
    In every case a total of 0 comes with an empty list. *)
Theorem getAllUsers_spec (h : Host) (limit offset : number) :
  let queries := [Query_limit limit; Query_offset offset] in
  exists res,
    run (getAllUsers limit offset) h
    = (Returned res,
       ev_listDocuments userCollection queries
       :: (if listDocuments h userCollection queries is Some _ then []
           else [console_log "Error fetching users"])) /\
    (users_total res = 0%Z -> users res = []) /\
    match listDocuments h userCollection queries with
    | Some r =>
        users_total res = total r /\
        (total r <> 0%Z -> users res = documents r)
    | None => res = {| users := []; users_total := 0 |}
    end.
Proof.
  intros queries. unfold getAllUsers, database_listDocuments. run_M.
  fold queries.
  destruct (listDocuments h userCollection queries) as [r|]; simpl.
  - destruct (bool_decide (total r = 0)%Z) eqn:Htotal; simpl;
      eexists; (split; [reflexivity|]); simpl.
    + apply bool_decide_eq_true in Htotal.
      split; [reflexivity|]. split; [reflexivity | contradiction].
    + apply bool_decide_eq_false in Htotal.
      split; [contradiction|]. split; reflexivity.
  - eexists. split; [reflexivity|]. split; reflexivity.
Qed.

Lemma getAllUsers_spec_witness :
  let h := ref_host (Some sample_account) sample_store accepting_store
             (fun _ => None) offline in
  exists res,
    fst (run (getAllUsers (of_Z 8) (of_Z 0)) h) = Returned res /\
    users_total res = 3%Z /\
    length (users res) = 3.
Proof.
  intros h.
  destruct (getAllUsers_spec h (of_Z 8) (of_Z 0)) as (res & Hrun & _ & Htotal & Husers).
  exists res. rewrite Hrun. split; [reflexivity|]. split; [exact Htotal|].
  rewrite Husers; [reflexivity | discriminate].
Defined.

(** ** The dashboard figures *)

Section StringOrder.



End StringOrder.

Section Counting.

Local Open Scope Z_scope.

Context {A : Type}.

Lemma filter_length_bound (p : A -> bool) (l : list A) :
  (length (List.filter p l) <= length l)%nat.
Proof.
  induction l as [|x l IH]; simpl; [lia|]. destruct (p x); simpl; lia.
Qed.

Lemma filter_length_mono (p q : A -> bool) (l : list A) :
  (forall x, p x = true -> q x = true) ->
  (length (List.filter p l) <= length (List.filter q l))%nat.
Proof.
  intros Hpq. induction l as [|x l IH]; simpl; [lia|].
  destruct (p x) eqn:Hp; [rewrite (Hpq x Hp); simpl; lia|].
  destruct (q x); simpl; lia.
Qed.


Lemma filter_none (p : A -> bool) (l : list A) :
  (forall x, x ∈ l -> p x = false) -> List.filter p l = [].
Proof.
  induction l as [|x l IH]; intros Hl; simpl; [reflexivity|].
  rewrite (Hl x (list_elem_of_here _ _)).
  apply IH. intros y Hy. apply Hl. apply list_elem_of_further. exact Hy.
Qed.

End Counting.

Section DashboardFacts.

Local Open Scope Z_scope.

Lemma in_range_open (key start : string) (end_ : option string) (item : Document) :
  in_range key start end_ item = true -> in_range key start None item = true.
Proof.
  unfold in_range. simpl. intros Hin.
  apply andb_true_iff in Hin as [-> _]. reflexivity.
Qed.

Lemma in_range_empty_end (key start : string) (item : Document) :
  in_range key start (Some "") item = in_range key start None item.
Proof. reflexivity. Qed.

Lemma in_range_missing (key start : string) (end_ : option string) (item : Document) :
  item !! key = None -> in_range key start end_ item = false.
Proof. unfold in_range. intros ->. reflexivity. Qed.


Lemma filterByDate_le_open
    (items : list Document) (key start : string) (end_ : option string) :
  filterByDate items key start end_ <= filterByDate items key start None.
Proof.
  unfold filterByDate. apply inj_le, filter_length_mono.
  intros item. apply in_range_open.
Qed.

Lemma filterByDate_le_length
    (items : list Document) (key start : string) (end_ : option string) :
  0 <= filterByDate items key start end_ <= Z.of_nat (length items).
Proof.
  unfold filterByDate. split; [lia|]. apply inj_le, filter_length_bound.
Qed.



Variable h : Host.

(** The accumulator after a [reduce] that counts a label per document. *)
Lemma reduce_labels
    (label : Document -> string) (docs : list Document)
    (acc : list (string * Z)) :
  NoDup (map fst acc) -> Forall (fun p => 0 < snd p) acc ->
  let acc' := fold_left (fun acc doc => bump acc (label doc)) docs acc in
  NoDup (map fst acc') /\
  Forall (fun p => 0 < snd p) acc' /\
  sum_values acc' = sum_values acc + Z.of_nat (length docs) /\
  (forall k, default 0 (assoc k acc')
             = default 0 (assoc k acc)
               + Z.of_nat (length (List.filter
                                     (fun d => String.eqb (label d) k) docs))) /\
  (forall k, k ∈ map fst acc -> k ∈ map fst acc').
Proof.
  revert acc. induction docs as [|d docs IH]; intros acc Hnodup Hpos; simpl.
  - repeat split; try assumption; try (intros; simpl; lia);
      intros; assumption.
  - pose proof (positive_assoc acc (label d) Hpos) as Hold.
    destruct (IH (bump acc (label d))) as (Hn & Hp & Hs & Hc & Hk).
    + rewrite bump_acc_set. apply NoDup_acc_set. exact Hnodup.
    + rewrite bump_acc_set. apply positive_acc_set; [lia | exact Hpos].
    + repeat split; try assumption.
      * rewrite Hs, bump_acc_set, sum_acc_set. lia.
      * intros k. rewrite Hc, bump_acc_set, assoc_acc_set.
        destruct (String.eqb_spec (label d) k) as [<-|_]; simpl; lia.
      * intros k Hin. apply Hk. rewrite bump_acc_set, keys_acc_set.
        destruct (assoc (label d) acc); [exact Hin|].
        apply elem_of_app. left. exact Hin.
Qed.

Lemma tripsGrowth_spec (trips : list Document) :
  let entries := growth_entries (tripsGrowth h trips) in
  NoDup (map day entries) /\
  Forall (fun e => 0 < count e) entries /\
  sum_counts entries = Z.of_nat (length trips) /\
  (forall e, e ∈ entries ->
             count e = Z.of_nat (length (created_on h (day e) trips))) /\
  (forall t, t ∈ trips -> exists e, e ∈ entries /\ day e = trip_day h t).
Proof.
  intros entries. subst entries. unfold tripsGrowth.
  destruct (reduce_labels (trip_day h) trips [] (NoDup_nil_2) (Forall_nil_2 _))
    as (Hn & Hp & Hs & Hc & _).
  set (acc := fold_left _ trips []) in *.
  split; [rewrite growth_entries_day; exact Hn|].
  split.
  { unfold growth_entries. apply Forall_fmap.
    eapply Forall_impl; [exact Hp|]. intros [k v] Hv. exact Hv. }
  split.
  { unfold sum_counts. rewrite growth_entries_count. exact Hs. }
  split.
  - intros e He. unfold growth_entries in He.
    apply list_elem_of_fmap in He as ([k v] & -> & Hin). simpl.
    specialize (Hc k). rewrite (assoc_elem_of acc k v Hn Hin) in Hc.
    simpl in Hc. exact Hc.
  - intros t Ht. specialize (Hc (trip_day h t)).
    assert (Hcount : 0 < Z.of_nat (length (List.filter
                                             (fun d => String.eqb (trip_day h d)
                                                         (trip_day h t)) trips))).
    { clear -Ht.
      induction Ht as [t trips|t t' trips _ IH]; simpl.
      - rewrite String.eqb_refl. simpl. lia.
      - destruct (String.eqb (trip_day h t') (trip_day h t)); simpl; lia. }
    destruct (assoc (trip_day h t) acc) as [v|] eqn:Hk; simpl in Hc; [|lia].
    exists {| count := v; day := trip_day h t |}. split; [|reflexivity].
    unfold growth_entries. apply list_elem_of_fmap.
    exists (trip_day h t, v). split; [reflexivity|].
    exact (assoc_Some_elem_of _ _ _ Hk).
Qed.

End DashboardFacts.

(** X14.  [filterByDate] counts at most the items it is given and never
    more with an end than without one; an empty end is no end; the count of
    a concatenation is the sum of the counts; and an item without the field
    is never counted. *)
Theorem filterByDate_spec
    (items more : list Document) (key start : string) (end_ : option string) :
  (0 <= filterByDate items key start end_)%Z /\
  (filterByDate items key start end_ <= filterByDate items key start None)%Z /\
  (filterByDate items key start None <= Z.of_nat (length items))%Z /\
  filterByDate items key start (Some "") = filterByDate items key start None /\
  filterByDate (items ++ more) key start end_
  = (filterByDate items key start end_ + filterByDate more key start end_)%Z /\
  ((forall item, item ∈ items -> item !! key = None) ->
   filterByDate items key start end_ = 0%Z).
Proof.
  split; [apply filterByDate_le_length|].
  split; [apply filterByDate_le_open|].
  split; [apply filterByDate_le_length|].
  split; [reflexivity|].
  split.
  - unfold filterByDate. rewrite List.filter_app, length_app. lia.
  - intros Hmissing. unfold filterByDate. rewrite filter_none; [reflexivity|].
    intros item Hitem. apply in_range_missing. exact (Hmissing item Hitem).
Qed.

Lemma filterByDate_spec_witness :
  filterByDate [sample_trip "2025-07-10T12:00:00.000Z"] "joinedAt"
    "2025-07-01T00:00:00.000Z" None = 0%Z.
Proof.
  destruct (filterByDate_spec [sample_trip "2025-07-10T12:00:00.000Z"] []
              "joinedAt" "2025-07-01T00:00:00.000Z" None)
    as (_ & _ & _ & _ & _ & Hmissing).
  apply Hmissing. intros item Hitem.
  apply list_elem_of_singleton in Hitem. subst item. reflexivity.
Defined.



(** X16.  The dashboard statistics have no error handler: when either
    listing rejects, the function rejects, after both listings were asked
    for. *)
Theorem getUsersAndTripsStats_rejects (h : Host) :
  listDocuments h userCollection [] = None \/
  listDocuments h tripCollection [] = None ->
  run getUsersAndTripsStats h
  = (Threw (Rejected "listDocuments"),
     [ev_listDocuments userCollection []; ev_listDocuments tripCollection []]).
Proof.
  intros Hnone. unfold getUsersAndTripsStats. run_M.
  destruct (listDocuments h userCollection []) as [users|]; simpl;
    [|reflexivity].
  destruct Hnone as [Hnone|Hnone]; [discriminate|].
  rewrite Hnone. reflexivity.
Qed.

Lemma getUsersAndTripsStats_rejects_witness :
  let h := ref_host (Some sample_account) failing_store accepting_store
             (fun _ => None) offline in
  run getUsersAndTripsStats h
  = (Threw (Rejected "listDocuments"),
     [ev_listDocuments userCollection []; ev_listDocuments tripCollection []]).
Proof.
  intros h. apply (getUsersAndTripsStats_rejects h). left. reflexivity.
Defined.

(** X17.  The entries of [getTripsCreatedPerDay] have pairwise distinct day
    labels and strictly positive counts; the counts add up to the number of
    listed trips, each count being the number of trips whose [createdAt]
    renders to that label, and every trip's label has an entry.  When the
    listing rejects, so does the function. *)
Theorem getTripsCreatedPerDay_spec (h : Host) :
  match listDocuments h tripCollection [] with
  | Some trips =>
      exists entries,
        run getTripsCreatedPerDay h
        = (Returned entries, [ev_listDocuments tripCollection []]) /\
        NoDup (map day entries) /\
        Forall (fun e => 0 < count e)%Z entries /\
        sum_counts entries = Z.of_nat (length (documents trips)) /\
        (forall e, e ∈ entries ->
           count e = Z.of_nat (length (created_on h (day e) (documents trips)))) /\
        (forall t, t ∈ documents trips ->
           exists e, e ∈ entries /\ day e = trip_day h t)
  | None =>
      run getTripsCreatedPerDay h
      = (Threw (Rejected "listDocuments"), [ev_listDocuments tripCollection []])
  end.
Proof.
  destruct (listDocuments h tripCollection []) as [trips|] eqn:Hlist.
  - exists (growth_entries (tripsGrowth h (documents trips))). split.
    + unfold getTripsCreatedPerDay, database_listDocuments. run_M.
      rewrite Hlist. reflexivity.
    + apply tripsGrowth_spec.
  - unfold getTripsCreatedPerDay, database_listDocuments. run_M.
    rewrite Hlist. reflexivity.
Qed.

Lemma getTripsCreatedPerDay_spec_witness :
  let h := ref_host (Some sample_account) sample_store accepting_store
             (fun _ => None) offline in
  exists entries,
    run getTripsCreatedPerDay h
    = (Returned entries, [ev_listDocuments tripCollection []]) /\
    sum_counts entries = 2%Z.
Proof.
  intros h.
  pose proof (getTripsCreatedPerDay_spec h) as Hspec.
  change (listDocuments h tripCollection [])
    with (Some {| documents := [sample_trip "2025-07-10T12:00:00.000Z";
                                sample_trip "2025-07-20T12:00:00.000Z"];
                  total := 2 |}) in Hspec.
  destruct Hspec as (entries & Hrun & _ & _ & Hsum & _).
  exists entries. split; [exact Hrun | exact Hsum].
Defined.

(** ** The rows of the trips page and its page parameter *)

Section TripRows.


Variable h : Host.




End TripRows.

Section PageText.

Lemma skip_white_space_run (ws s : string) :
  all_white_space ws = true ->
  skip_white_space (ws +:+ s) = skip_white_space s.
Proof.
  intros Hws. induction ws as [|c ws IH]; [reflexivity|].
  simpl in Hws. apply andb_true_iff in Hws as [Hc Hws].
  rewrite append_cons. simpl. rewrite Hc. exact (IH Hws).
Qed.

Lemma digits_value_rest (s rest : string) (acc : option Z) :
  all_digits s = true -> no_leading_digit rest = true ->
  digits_value acc (s +:+ rest) = digits_value acc s.
Proof.
  intros Hs Hrest. revert acc.
  induction s as [|c s IH]; intros acc.
  - rewrite append_nil. destruct rest as [|r rest]; [reflexivity|].
    simpl in *. unfold digit_value in *.
    destruct (bool_decide (48 <= nat_of_ascii r <= 57)%nat); [|reflexivity].
    rewrite bool_decide_eq_true_2 in Hrest by (eexists; reflexivity).
    discriminate.
  - simpl in Hs. apply andb_true_iff in Hs as [Hc Hs].
    rewrite append_cons. simpl.
    destruct (digit_value c) as [d|]; [apply (IH Hs) | reflexivity].
Qed.

Lemma digit_not_white_space (c : ascii) (d : Z) :
  digit_value c = Some d ->
  is_white_space c = false /\ c <> "-"%char /\ c <> "+"%char.
Proof.
  unfold digit_value, is_white_space. cbv zeta.
  destruct (bool_decide_reflect (48 <= nat_of_ascii c <= 57)%nat) as [Hc|];
    [intros _ | discriminate].
  split; [apply bool_decide_eq_false_2; intros [Hs|Hs]; lia|].
  split; intros ->; vm_compute in Hc; lia.
Qed.

(** [parseInt] reads the digits and ignores what surrounds them. *)
Lemma parseInt10_text (ws rest : string) (n : N) :
  all_white_space ws = true -> no_leading_digit rest = true ->
  parseInt10 (ws +:+ pretty n +:+ rest) = of_Z (Z.of_N n).
Proof.
  intros Hws Hrest.
  assert (Hdigits : all_digits (pretty n) = true /\
                    digits_value None (pretty n) = Some (Z.of_N n)).
  { unfold pretty, pretty_N.
    destruct (decide (n = 0)%N) as [->|Hn]; [split; reflexivity|].
    destruct (pretty_N_go_digits n) as [Hall Hval].
    rewrite decide_False in Hval by exact Hn. split; assumption. }
  destruct Hdigits as [Hall Hval].
  unfold parseInt10. rewrite (skip_white_space_run ws _ Hws).
  pose proof (digits_value_rest (pretty n) rest None Hall Hrest) as Hread.
  destruct (pretty n) as [|c p] eqn:Hp; [discriminate Hval|].
  assert (Hc : is_Some (digit_value c)).
  { simpl in Hall. apply andb_true_iff in Hall as [Hc _].
    apply bool_decide_eq_true in Hc. exact Hc. }
  destruct Hc as [d Hc].
  destruct (digit_not_white_space c d Hc) as (Hspace & Hminus & Hplus).
  rewrite append_cons in *. simpl skip_white_space. rewrite Hspace.
  assert (Hsign : forall s : string,
             match String c s with
             | String "-" r => (true, r)
             | String "+" r => (false, r)
             | _ => (false, String c s)
             end = (false, String c s)).
  { intros s.
    destruct c as [[|] [|] [|] [|] [|] [|] [|] [|]]; try reflexivity;
      congruence. }
  rewrite Hsign, Hread, Hval. reflexivity.
Qed.

Lemma text_nonempty (ws rest : string) (n : N) :
  String.eqb (ws +:+ pretty n +:+ rest) "" = false.
Proof.
  apply String.eqb_neq.
  destruct ws as [|c ws]; [|rewrite append_cons; discriminate].
  rewrite append_nil.
  pose proof (pretty_N_nonempty n) as Hn. apply String.eqb_neq in Hn.
  destruct (pretty n); [congruence | rewrite append_cons; discriminate].
Qed.

End PageText.



(** X19.  The trips page reads its page number as [parseInt] does: white
    space before the digits and anything after them that does not start
    with a digit are ignored, so such a parameter loads the same page as the
    plain number. *)
Theorem loader_page_text (ws rest : string) (n : N) :
  all_white_space ws = true ->
  no_leading_digit rest = true ->
  loader (Some (ws +:+ pretty n +:+ rest)) = loader (page_param n).
Proof.
  intros Hws Hrest. unfold loader, page_param.
  rewrite text_nonempty, pretty_N_nonempty.
  rewrite (parseInt10_text ws rest n Hws Hrest), parseInt10_pretty.
  reflexivity.
Qed.

Lemma loader_page_text_witness :
  loader (Some (" " +:+ pretty 2%N +:+ "abc")) = loader (page_param 2).
Proof. apply (loader_page_text " " "abc" 2); reflexivity. Defined.





(** ** Names and labels *)

Section FirstWord.

Lemma split_white_space_head (s : string) :
  head (split_white_space false s) = Some (first_run s).
Proof.
  induction s as [|c rest IH]; [reflexivity|]. simpl.
  destruct (is_white_space c); [reflexivity|].
  destruct (split_white_space false rest) as [|piece pieces];
    [discriminate IH|].
  simpl in *. congruence.
Qed.

Lemma first_run_trim_end (s : string) : first_run (trim_end s) = first_run s.
Proof.
  induction s as [|c rest IH]; [reflexivity|]. simpl.
  destruct (trim_end rest) as [|c' rest'] eqn:Hrest.
  - simpl in IH. destruct (is_white_space c) eqn:Hc; simpl.
    + reflexivity.
    + rewrite Hc, <- IH. reflexivity.
  - rewrite <- IH. reflexivity.
Qed.

Lemma getFirstWord_first_run (s : string) :
  getFirstWord (Some s) = first_run (skip_white_space s).
Proof.
  unfold getFirstWord, trim. simpl default.
  rewrite split_white_space_head, first_run_trim_end.
  destruct (String.eqb_spec (first_run (skip_white_space s)) "") as [->|_];
    reflexivity.
Qed.

Lemma first_run_no_white_space (s : string) :
  no_white_space (first_run s) = true.
Proof.
  induction s as [|c rest IH]; [reflexivity|]. simpl.
  destruct (is_white_space c) eqn:Hc; [reflexivity|].
  simpl. rewrite Hc, IH. reflexivity.
Qed.

Lemma first_run_plain (s : string) :
  no_white_space s = true -> first_run s = s /\ skip_white_space s = s.
Proof.
  induction s as [|c rest IH]; [split; reflexivity|]. simpl.
  intros Hs. apply andb_true_iff in Hs as [Hc Hrest].
  apply negb_true_iff in Hc. rewrite Hc.
  destruct (IH Hrest) as [-> _]. split; reflexivity.
Qed.

Lemma first_run_empty (s : string) :
  first_run (skip_white_space s) = "" <-> all_white_space s = true.
Proof.
  induction s as [|c rest IH]; [split; reflexivity|]. simpl.
  destruct (is_white_space c) eqn:Hc; [exact IH|].
  simpl. rewrite Hc. split; discriminate.
Qed.

End FirstWord.

Section Labels.

Lemma lower_not_upper (c : ascii) : is_lower c = true -> is_upper c = false.
Proof.
  unfold is_lower, is_upper. cbv zeta. intros Hc.
  apply bool_decide_eq_true in Hc. apply bool_decide_eq_false_2. lia.
Qed.

Lemma nat_of_ascii_bound (c : ascii) : nat_of_ascii c < 256.
Proof.
  destruct c as [[|] [|] [|] [|] [|] [|] [|] [|]]; vm_compute; lia.
Qed.

Lemma toLowerCase_toUpperCase (c : ascii) :
  is_lower c = true -> toLowerCase (toUpperCase c) = c.
Proof.
  intros Hc. unfold toUpperCase. rewrite Hc.
  unfold is_lower in Hc. cbv zeta in Hc. apply bool_decide_eq_true in Hc.
  unfold toLowerCase, is_upper. cbv zeta.
  rewrite nat_ascii_embedding by lia.
  rewrite bool_decide_eq_true_2 by lia.
  replace (nat_of_ascii c - 32 + 32) with (nat_of_ascii c) by lia.
  apply ascii_nat_embedding.
Qed.

Lemma toUpperCase_upper (c : ascii) :
  is_lower c = true ->
  is_upper (toUpperCase c) = true /\ toUpperCase c <> " "%char.
Proof.
  intros Hc. unfold toUpperCase. rewrite Hc.
  unfold is_lower in Hc. cbv zeta in Hc. apply bool_decide_eq_true in Hc.
  assert (Hn : nat_of_ascii (ascii_of_nat (nat_of_ascii c - 32))
               = nat_of_ascii c - 32) by (apply nat_ascii_embedding; lia).
  split.
  - unfold is_upper. cbv zeta. rewrite Hn. apply bool_decide_eq_true_2. lia.
  - intros Hblank. rewrite Hblank in Hn.
    change (nat_of_ascii " ") with 32 in Hn. lia.
Qed.

Lemma letter_not_blank (c : ascii) :
  is_upper c || is_lower c = true -> Ascii.eqb c " " = false.
Proof.
  intros Hc. apply Ascii.eqb_neq. intros ->. vm_compute in Hc. discriminate.
Qed.

Lemma drop_blanks_space_capitals (s : string) :
  letters s = true -> drop_blanks (space_capitals s) = s.
Proof.
  induction s as [|c rest IH]; [reflexivity|]. simpl.
  intros Hs. apply andb_true_iff in Hs as [Hc Hrest].
  pose proof (letter_not_blank c Hc) as Hblank.
  destruct (is_upper c); simpl; rewrite Hblank, (IH Hrest); reflexivity.
Qed.

Lemma length_space_capitals (s : string) :
  String.length (space_capitals s) = String.length s + capitals s.
Proof.
  induction s as [|c rest IH]; [reflexivity|]. simpl.
  destruct (is_upper c); simpl; rewrite IH; lia.
Qed.

End Labels.

(** X22.  For ASCII text, [getFirstWord] is the run of characters between
    the leading white space and the next white space.  The result holds no
    white space, is empty exactly when the input is white space only, and is
    a fixed point of the function; a missing argument gives the empty
    string. *)
Theorem getFirstWord_spec (s : string) :
  ascii_text s = true ->
  getFirstWord (Some s) = first_run (skip_white_space s) /\
  no_white_space (getFirstWord (Some s)) = true /\
  (getFirstWord (Some s) = "" <-> all_white_space s = true) /\
  getFirstWord (Some (getFirstWord (Some s))) = getFirstWord (Some s) /\
  getFirstWord None = "".
Proof.
  intros _. rewrite !getFirstWord_first_run.
  split; [reflexivity|].
  split; [apply first_run_no_white_space|].
  split; [apply first_run_empty|].
  split; [|reflexivity].
  destruct (first_run_plain _ (first_run_no_white_space (skip_white_space s)))
    as [Hrun Hskip].
  rewrite Hskip. exact Hrun.
Qed.

Lemma getFirstWord_spec_witness :
  getFirstWord (Some "  Gray Doe ") = "Gray".
Proof.
  destruct (getFirstWord_spec "  Gray Doe " eq_refl) as [-> _]. reflexivity.
Defined.

(** X23.  For a camel-case key, the label [formatKey] makes starts with a
    capital letter, is longer than the key by one blank per capital letter
    of the key, and reads back to the key when its blanks are dropped and
    its first letter is lowered. *)
Theorem formatKey_spec (key : string) :
  camel_case key = true ->
  unformatKey (formatKey key) = key /\
  String.length (formatKey key) = String.length key + capitals key /\
  exists c rest, formatKey key = String c rest /\ is_upper c = true.
Proof.
  destruct key as [|c rest]; [discriminate|]. simpl camel_case.
  intros Hkey. apply andb_true_iff in Hkey as [Hc Hrest].
  pose proof (lower_not_upper c Hc) as Hup.
  assert (Hline : bool_decide (nat_of_ascii c = 10 \/ nat_of_ascii c = 13) = false).
  { unfold is_lower in Hc. cbv zeta in Hc. apply bool_decide_eq_true in Hc.
    apply bool_decide_eq_false_2. lia. }
  assert (Hlabel : formatKey (String c rest)
                   = String (toUpperCase c) (space_capitals rest)).
  { unfold formatKey. simpl space_capitals. rewrite Hup.
    unfold capitalize. rewrite Hline. reflexivity. }
  destruct (toUpperCase_upper c Hc) as [Hupper Hblank].
  rewrite Hlabel. split; [|split].
  - unfold unformatKey. simpl drop_blanks.
    apply Ascii.eqb_neq in Hblank. rewrite Hblank.
    rewrite (drop_blanks_space_capitals rest Hrest).
    rewrite (toLowerCase_toUpperCase c Hc). reflexivity.
  - simpl. rewrite Hup, length_space_capitals. reflexivity.
  - exists (toUpperCase c), (space_capitals rest). split; [reflexivity | exact Hupper].
Qed.

Lemma formatKey_spec_witness :
  formatKey "travelStyle" = "Travel Style" /\
  unformatKey (formatKey "travelStyle") = "travelStyle".
Proof.
  split; [reflexivity|].
  destruct (formatKey_spec "travelStyle" eq_refl) as [Hback _]. exact Hback.
Defined.

(** ** The create-trip form: what a submission does *)

Section SubmitCases.

Variable h : Host.

(** Every run of [handleSubmit]. *)
Lemma handleSubmit_cases (f : TripFormData) :
  run (handleSubmit f) h
  = if negb (fields_filled f) then
      (Returned tt,
       [ev_setLoading true; ev_setError "Please fill in all fields";
        ev_setLoading false])
    else if lt (duration f) (of_Z 1) || gt (duration f) (of_Z 10) then
      (Returned tt,
       [ev_setLoading true;
        ev_setError "Duration must be between 1 and 10 days";
        ev_setLoading false])
    else
      match account_get h with
      | None => (Threw (Rejected "account.get"), [ev_setLoading true])
      | Some user =>
          if blank (account_id user) then
            (Returned tt,
             [ev_setLoading true; console_error "User not authenticated";
              ev_setLoading false])
          else
            (Returned tt,
             [ev_setLoading true;
              ev_fetch (CreateTripApi f (account_id user))]
             ++ after_request h f user ++ [ev_setLoading false])
      end.
Proof.
  unfold handleSubmit. rewrite fields_filled_blank.
  destruct (negb (fields_filled f)); [reflexivity|].
  destruct (lt (duration f) (of_Z 1) || gt (duration f) (of_Z 10));
    [reflexivity|].
  unfold try_finally, do_fetch, response_json, after_request. run_M.
  destruct (account_get h) as [user|]; simpl; [|reflexivity].
  destruct (blank (account_id user)); [reflexivity|]. simpl.
  destruct (fetch h (CreateTripApi f (account_id user)))
    as [|ok [result|]]; simpl; try reflexivity.
  destruct (truthy _); reflexivity.
Qed.

Lemma after_request_events (f : TripFormData) (user : Account) (e : Event) :
  e ∈ after_request h f user ->
  (exists msg, e = console_error msg) \/
  exists ok result id,
    fetch h (CreateTripApi f (account_id user)) = HttpResponse ok (Some result) /\
    prop result "id" = Some id /\ truthy (Some id) = true /\
    e = ev_navigate "/trips/" id.
Proof.
  unfold after_request.
  destruct (fetch h (CreateTripApi f (account_id user)))
    as [|ok [result|]] eqn:Hfetch;
    try (intros He; apply list_elem_of_singleton in He; left; eexists; exact He).
  destruct (truthy (opt_member (Some result) "id")) eqn:Hid;
    intros He; apply list_elem_of_singleton in He;
    [|left; eexists; exact He].
  right. exists ok, result.
  destruct result as [| | | | |fields]; try discriminate Hid.
  simpl in *. destruct (assoc "id" fields) as [id|]; [|discriminate Hid].
  exists id. split; [reflexivity|]. split; [reflexivity|].
  split; [exact Hid|]. rewrite He. unfold or_null. rewrite Hid. reflexivity.
Qed.

End SubmitCases.

(** X24.  Whenever [handleSubmit] returns, the first thing it did was to
    switch the loading state on and the last thing to switch it off.  It
    fails to return only when the form passes its checks and the account
    cannot be read: the rejection escapes and the loading state stays on. *)
Theorem handleSubmit_loading (h : Host) (f : TripFormData) :
  let r := run (handleSubmit f) h in
  head (snd r) = Some (ev_setLoading true) /\
  (fst r = Returned tt -> last (snd r) = Some (ev_setLoading false)) /\
  (fst r <> Returned tt <-> passes_checks f = true /\ account_get h = None) /\
  (passes_checks f = true -> account_get h = None ->
   r = (Threw (Rejected "account.get"), [ev_setLoading true])).
Proof.
  intros r. subst r. rewrite handleSubmit_cases. unfold passes_checks.
  assert (Hreturns : forall (checks : bool) (user : option Account),
             (checks = true -> user = None -> False) ->
             (Returned tt : Outcome unit) <> Returned tt
             <-> checks = true /\ user = None).
  { intros checks user Hnot. split.
    - intros Hne. exfalso. apply Hne. reflexivity.
    - intros [Hc Hu]. exfalso. exact (Hnot Hc Hu). }
  destruct (fields_filled f); cbn [negb andb].
  2: { split; [reflexivity|]. split; [reflexivity|].
       split; [apply Hreturns; discriminate | discriminate]. }
  destruct (lt (duration f) (of_Z 1) || gt (duration f) (of_Z 10)); simpl.
  { split; [reflexivity|]. split; [reflexivity|].
    split; [apply Hreturns; discriminate | discriminate]. }
  destruct (account_get h) as [user|]; simpl.
  - destruct (blank (account_id user)); simpl.
    + split; [reflexivity|]. split; [reflexivity|].
      split; [apply Hreturns; discriminate | discriminate].
    + split; [reflexivity|]. split.
      * intros _. rewrite app_comm_cons. apply last_snoc.
      * split; [apply Hreturns; discriminate | discriminate].
  - split; [reflexivity|]. split; [discriminate|].
    split; [|reflexivity].
    split; [intros _; split; reflexivity | discriminate].
Qed.

Lemma handleSubmit_loading_witness :
  let h := ref_host None empty_store accepting_store (fun _ => None) api_answers in
  run (handleSubmit (sample_form (of_Z 3))) h
  = (Threw (Rejected "account.get"), [ev_setLoading true]).
Proof.
  intros h.
  destruct (handleSubmit_loading h (sample_form (of_Z 3))) as (_ & _ & _ & Hstuck).
  apply Hstuck; reflexivity.
Defined.

(** X25.  [handleSubmit] shows an error message only when one of its two
    checks fails, and then sends nothing.  It sends at most one request, to
    the create-trip endpoint with the account's id, and navigates only to
    the trip whose truthy [id] the response body carries, whatever the
    status of the response; every other outcome of the request is reported
    on the console only. *)
Theorem handleSubmit_outcomes (h : Host) (f : TripFormData) :
  let tr := snd (run (handleSubmit f) h) in
  (forall msg, ev_setError msg ∈ tr -> passes_checks f = false /\ fetched tr = []) /\
  (fetched tr = [] \/
   exists user,
     account_get h = Some user /\ account_id user <> "" /\
     passes_checks f = true /\
     fetched tr = [CreateTripApi f (account_id user)]) /\
  (forall path id,
      ev_navigate path id ∈ tr ->
      path = "/trips/" /\ truthy (Some id) = true /\
      exists user ok result,
        account_get h = Some user /\
        fetch h (CreateTripApi f (account_id user)) = HttpResponse ok (Some result) /\
        prop result "id" = Some id).
Proof.
  intros tr. subst tr. rewrite handleSubmit_cases. unfold passes_checks.
  assert (Hshort : forall (e1 e2 e3 e : Event),
             e ∈ [e1; e2; e3] -> e = e1 \/ e = e2 \/ e = e3).
  { intros e1 e2 e3 e He.
    repeat (apply elem_of_cons in He as [He|He]; [tauto|]). inversion He. }
  destruct (fields_filled f); cbn [negb andb].
  2: { split; [intros msg _; split; reflexivity|]. split; [left; reflexivity|].
       intros path id He. apply Hshort in He as [He|[He|He]]; discriminate He. }
  destruct (lt (duration f) (of_Z 1) || gt (duration f) (of_Z 10)); simpl.
  { split; [intros msg _; split; reflexivity|]. split; [left; reflexivity|].
    intros path id He. apply Hshort in He as [He|[He|He]]; discriminate He. }
  destruct (account_get h) as [user|]; simpl.
  2: { split; [intros msg He; apply list_elem_of_singleton in He; discriminate He|].
       split; [left; reflexivity|].
       intros path id He. apply list_elem_of_singleton in He. discriminate He. }
  destruct (blank (account_id user)) eqn:Hblank; simpl.
  { split; [intros msg He; apply Hshort in He as [He|[He|He]]; discriminate He|].
    split; [left; reflexivity|].
    intros path id He. apply Hshort in He as [He|[He|He]]; discriminate He. }
  assert (Hevents : forall e,
             e ∈ ev_setLoading true :: ev_fetch (CreateTripApi f (account_id user))
                 :: after_request h f user ++ [ev_setLoading false] ->
             e = ev_setLoading true \/
             e = ev_fetch (CreateTripApi f (account_id user)) \/
             e = ev_setLoading false \/ e ∈ after_request h f user).
  { intros e He.
    apply elem_of_cons in He as [He|He]; [tauto|].
    apply elem_of_cons in He as [He|He]; [tauto|].
    apply elem_of_app in He as [He|He]; [tauto|].
    apply list_elem_of_singleton in He. tauto. }
  assert (Hfetched : fetched (after_request h f user ++ [ev_setLoading false]) = []).
  { unfold after_request.
    destruct (fetch h (CreateTripApi f (account_id user))) as [|ok [result|]];
      try reflexivity.
    destruct (truthy (opt_member (Some result) "id")); reflexivity. }
  split; [|split].
  - intros msg He. exfalso.
    apply Hevents in He as [He|[He|[He|He]]]; try discriminate He.
    apply after_request_events in He as [[m He]|(ok & result & id & _ & _ & _ & He)];
      discriminate He.
  - right. exists user. split; [reflexivity|].
    split; [apply String.eqb_neq; exact Hblank|]. split; [reflexivity|].
    change (fetched (ev_setLoading true
                     :: ev_fetch (CreateTripApi f (account_id user))
                     :: after_request h f user ++ [ev_setLoading false]))
      with (CreateTripApi f (account_id user)
            :: fetched (after_request h f user ++ [ev_setLoading false])).
    rewrite Hfetched. reflexivity.
  - intros path id He.
    apply Hevents in He as [He|[He|[He|He]]]; try discriminate He.
    apply after_request_events in He
        as [[m He]|(ok & result & id' & Hfetch & Hid & Htruthy & He)];
      [discriminate He|].
    injection He as -> ->. split; [reflexivity|]. split; [exact Htruthy|].
    exists user, ok, result. split; [reflexivity|]. split; assumption.
Qed.

Lemma handleSubmit_outcomes_witness :
  let h := ref_host (Some sample_account) empty_store accepting_store
             (fun _ => None) api_fails in
  let f := sample_form (of_Z 3) in
  run (handleSubmit f) h
  = (Returned tt,
     [ev_setLoading true;
      ev_fetch (CreateTripApi f "66f0a1c2000d3b7e9a11");
      console_error "failed to generate a trip";
      ev_setLoading false]) /\
  forall msg, ev_setError msg ∉ snd (run (handleSubmit f) h).
Proof.
  intros h f. split; [reflexivity|].
  intros msg He.
  destruct (handleSubmit_outcomes h f) as (Herror & _).
  destruct (Herror msg He) as [Hchecks _]. discriminate Hchecks.
Defined.
